(** * ApiDetector: capture-to-storage pipeline, session lifecycle and ask path

    A shallow embedding of the extension's scripts:
    - [interceptor.js]  : the wrappers around [window.fetch] and
      [XMLHttpRequest.prototype.open/send] and the [isActive] flag;
    - [content.js]      : the tagging of captures with [pageLoadId];
    - [background.js]   : the IndexedDB helpers ([saveRequest],
      [getRequestsByPageLoadId], [clearAllRequests], [deleteRequestById]),
      the provider calls ([callGeminiAPI], [callOpenRouterAPI]) and the
      [chrome.runtime.onMessage] listener.

    Asynchronous code is modelled by explicit state passing: every helper
    opens one transaction holding one request, so a helper call is one atomic
    step on the database.  What the host platform answers (whether IndexedDB
    serves a request, what the original [fetch] resolves to, what the
    provider replies) is an explicit argument of the step. *)

From stdpp Require Import gmap strings list fin_maps sorting pretty.
From Stdlib Require Import ZArith Ascii.

Local Open Scope string_scope.
Local Open Scope Z_scope.
Local Set Warnings "-register-all".

(** ** JavaScript values the scripts manipulate *)

Module Js.

(** The settlement of a promise or the completion of a call: a value, or
    a thrown error of which the scripts only ever read [error.message]. *)
Inductive Completion (A : Type) : Type :=
| Normal (a : A)
| Throw (message : string).
Arguments Normal {A} a.
Arguments Throw {A} message.

(** [String.prototype.startsWith(p)]. *)
Fixpoint startsWith (p s : string) : bool :=
  match p, s with
  | EmptyString, _ => true
  | String a p', String b s' => if decide (a = b) then startsWith p' s' else false
  | String _ _, EmptyString => false
  end.

(** [String.prototype.includes(needle)]: a match at position 0, or in the
    rest of the string. *)
Fixpoint includes (needle hay : string) : bool :=
  startsWith needle hay ||
  match hay with
  | EmptyString => false
  | String _ hay' => includes needle hay'
  end.

(** Truthiness of a string-or-null/undefined value: [null], [undefined]
    and the empty string are falsy. *)
Definition truthy_str (v : option string) : bool :=
  match v with
  | None => false
  | Some s => negb (String.eqb s "")
  end.

(** A JS number as [parseInt] produces it: an integer or [NaN]. *)
Inductive Num : Type :=
| NaN
| Int (z : Z).

Definition isStrWhiteSpace (c : ascii) : bool :=
  let n := nat_of_ascii c in
  (n =? 32)%nat || (n =? 9)%nat || (n =? 10)%nat || (n =? 11)%nat
  || (n =? 12)%nat || (n =? 13)%nat.

Fixpoint trimStart (s : string) : string :=
  match s with
  | String c s' => if isStrWhiteSpace c then trimStart s' else s
  | EmptyString => s
  end.

(** The value of a digit in the given radix (10 or 16), if it is one. *)
Definition digitValue (radix : Z) (c : ascii) : option Z :=
  let n := Z.of_nat (nat_of_ascii c) in
  let v := if (48 <=? n) && (n <=? 57) then Some (n - 48)
           else if (97 <=? n) && (n <=? 102) then Some (n - 87)
           else if (65 <=? n) && (n <=? 70) then Some (n - 55)
           else None in
  match v with
  | Some d => if d <? radix then Some d else None
  | None => None
  end.

(** The longest prefix of digits, accumulated left to right; [None] when
    the prefix is empty. *)
Fixpoint parseDigits (radix : Z) (acc : option Z) (s : string) : option Z :=
  match s with
  | EmptyString => acc
  | String c s' =>
      match digitValue radix c with
      | Some d => parseDigits radix (Some (radix * default 0 acc + d)) s'
      | None => acc
      end
  end.

(** [parseInt(s)] with no radix argument: leading white space (its ASCII
    part), a sign, a [0x]/[0X] prefix, then digits; [NaN] when no digit
    follows.  The integer is exact, which is what [parseInt] answers up to
    [2 ^ 53], the range of the keys; above it the platform rounds. *)
Definition parseInt (s : string) : Num :=
  let s1 := trimStart s in
  let '(sign, s2) :=
    match s1 with
    | String "-"%char r => (-1, r)
    | String "+"%char r => (1, r)
    | _ => (1, s1)
    end in
  let '(radix, s3) :=
    match s2 with
    | String "0"%char (String "x"%char r) => (16, r)
    | String "0"%char (String "X"%char r) => (16, r)
    | _ => (10, s2)
    end in
  match parseDigits radix None s3 with
  | Some v => Int (sign * v)
  | None => NaN
  end.

(** Values as [JSON.parse] and the message channels deliver them.  A
    number is carried by its [ToString] rendering. *)
Inductive Value : Type :=
| VUndefined
| VNull
| VBool (b : bool)
| VNumber (repr : string)
| VString (s : string)
| VArray (elements : list Value)
| VObject (fields : list (string * Value)).

(** [ToBoolean]: what [if (v)] and [v || w] test. *)
Definition truthy (v : Value) : bool :=
  match v with
  | VUndefined | VNull => false
  | VBool b => b
  | VNumber r => negb (String.eqb r "0") && negb (String.eqb r "NaN")
  | VString s => negb (String.eqb s "")
  | VArray _ | VObject _ => true
  end.

Fixpoint join (sep : string) (l : list string) : string :=
  match l with
  | [] => ""
  | [x] => x
  | x :: l' => x +:+ sep +:+ join sep l'
  end.

(** [ToString], as a template literal applies it.  Inside an array,
    [null] and [undefined] render as the empty string. *)
Fixpoint toString (v : Value) : string :=
  match v with
  | VUndefined => "undefined"
  | VNull => "null"
  | VBool true => "true"
  | VBool false => "false"
  | VNumber r => r
  | VString s => s
  | VArray l =>
      join ","
        (List.map (λ e, match e with
                        | VUndefined | VNull => ""
                        | _ => toString e
                        end) l)
  | VObject _ => "[object Object]"
  end.

(** A property key: a name, or an array index. *)
Inductive Key : Type :=
| Name (n : string)
| Index (i : nat).

Definition keyName (k : Key) : string :=
  match k with
  | Name n => n
  | Index i => pretty i
  end.

Fixpoint assoc (n : string) (fields : list (string * Value)) : Value :=
  match fields with
  | [] => VUndefined
  | (n', v) :: rest => if String.eqb n n' then v else assoc n rest
  end.

(** Reading a property of a value that is neither [null] nor
    [undefined].  None of the names the scripts read is a built-in
    property of strings, arrays, numbers or booleans. *)
Definition getOwn (v : Value) (k : Key) : Value :=
  match v, k with
  | VObject fields, _ => assoc (keyName k) fields
  | VArray l, Index i => default VUndefined (l !! i)
  | VString s, Index i =>
      match String.get i s with
      | Some c => VString (String c EmptyString)
      | None => VUndefined
      end
  | _, _ => VUndefined
  end.

(** [v.k] / [v[k]]: a [TypeError] on [null] and [undefined]. *)
Definition get (v : Value) (k : Key) : Completion Value :=
  match v with
  | VUndefined =>
      Throw ("Cannot read properties of undefined (reading '" +:+ keyName k +:+ "')")
  | VNull =>
      Throw ("Cannot read properties of null (reading '" +:+ keyName k +:+ "')")
  | _ => Normal (getOwn v k)
  end.

(** [v?.k] / [v?.[k]]: [undefined] on [null] and [undefined]. *)
Definition getOpt (v : Value) (k : Key) : Value :=
  match v with
  | VUndefined | VNull => VUndefined
  | _ => getOwn v k
  end.

(** [a || b]. *)
Definition orElse (a b : Value) : Value := if truthy a then a else b.

#[global] Instance completion_ret : MRet Completion := λ A a, Normal a.
#[global] Instance completion_bind : MBind Completion :=
  λ A B f c, match c with
             | Normal a => f a
             | Throw e => Throw e
             end.

End Js.

Import Js.

(** ** The log store: the IndexedDB object store [requests] and its helpers *)

Module LogStore.

(** The object [saveRequest] is given, and the stored record.  [id] is the
    object store's [keyPath]: absent on a value that carries no in-line key,
    set by the store on insert. *)
Record RequestData : Type := mkRequestData {
  url : string;
  method : string;
  responseBody : string;
  contentType : option string;
  timestamp : Z;
  pageLoadId : string;
  id : option Z
}.

Definition with_id (k : Z) (v : RequestData) : RequestData :=
  {| url := url v; method := method v; responseBody := responseBody v;
     contentType := contentType v; timestamp := timestamp v;
     pageLoadId := pageLoadId v; id := Some k |}.

(** The object store created by [onupgradeneeded] with
    [{ keyPath: 'id', autoIncrement: true }]: the records by primary key and
    the key generator's current number. *)
Record Database : Type := mkDatabase {
  records : gmap Z RequestData;
  currentNumber : Z
}.

(** The store as [createObjectStore] leaves it. *)
Definition emptyDatabase : Database :=
  {| records := ∅; currentNumber := 1 |}.

(** Whether the platform serves this call's [indexedDB.open] and request,
    or fails one of them with an error. *)
Inductive Engine : Type :=
| Healthy
| Faulty (message : string).

(** The largest key a key generator hands out. *)
Definition MAX_GENERATED_KEY : Z := 2 ^ 53.

(** [store.add(value)] on a store with a key path and a key generator.
    A value carrying an in-line key is stored under it (and pushes the
    generator past it); otherwise the generator's current number is the
    key and is injected at the key path.  An existing key or an exhausted
    generator fails the request, which aborts the transaction. *)
Definition store_add (value : RequestData) (db : Database)
  : Completion Z * Database :=
  match id value with
  | Some k =>
      match records db !! k with
      | Some _ => (Throw "ConstraintError", db)
      | None =>
          (Normal k,
           {| records := <[k := value]> (records db);
              currentNumber :=
                if currentNumber db <=? k
                then Z.min k MAX_GENERATED_KEY + 1
                else currentNumber db |})
      end
  | None =>
      let k := currentNumber db in
      if MAX_GENERATED_KEY <? k then (Throw "ConstraintError", db)
      else
        match records db !! k with
        | Some _ => (Throw "ConstraintError", db)
        | None =>
            (Normal k,
             {| records := <[k := with_id k value]> (records db);
                currentNumber := k + 1 |})
        end
  end.

(** [store.delete(key)]: [NaN] is not a valid key; deleting a key that
    holds no record succeeds. *)
Definition store_delete (key : Num) (db : Database)
  : Completion unit * Database :=
  match key with
  | NaN => (Throw "DataError", db)
  | Int k =>
      (Normal (),
       {| records := delete k (records db);
          currentNumber := currentNumber db |})
  end.

(** [store.clear()]: every record goes, the key generator stays. *)
Definition store_clear (db : Database) : Completion unit * Database :=
  (Normal (), {| records := ∅; currentNumber := currentNumber db |}).

Definition key_le (a b : Z * RequestData) : Prop := a.1 ≤ b.1.

#[global] Instance key_le_dec : RelDecision key_le.
Proof. intros a b. unfold key_le. apply _. Defined.

(** [store.index('pageLoadId').getAll(pageLoadId)]: the records whose
    [pageLoadId] is the queried key, by ascending primary key. *)
Definition index_getAll (session : string) (db : Database)
  : list RequestData :=
  (merge_sort key_le
     (map_to_list
        (filter (λ kv : Z * RequestData, pageLoadId kv.2 = session)
                (records db)))).*2.

Definition saveRequest (eng : Engine) (requestData : RequestData)
    (db : Database) : Completion Z * Database :=
  match eng with
  | Faulty e => (Throw e, db)
  | Healthy => store_add requestData db
  end.

Definition getRequestsByPageLoadId (eng : Engine) (session : string)
    (db : Database) : Completion (list RequestData) :=
  match eng with
  | Faulty e => Throw e
  | Healthy => Normal (index_getAll session db)
  end.

Definition clearAllRequests (eng : Engine) (db : Database)
  : Completion unit * Database :=
  match eng with
  | Faulty e => (Throw e, db)
  | Healthy => store_clear db
  end.

Definition deleteRequestById (eng : Engine) (key : Num) (db : Database)
  : Completion unit * Database :=
  match eng with
  | Faulty e => (Throw e, db)
  | Healthy => store_delete key db
  end.

(** Every stored record sits under the key its [id] names, and the key
    generator is ahead of every key unless it is exhausted. *)
Definition wf (db : Database) : Prop :=
  ∀ k v, records db !! k = Some v →
    id v = Some k ∧ (k < currentNumber db ∨ MAX_GENERATED_KEY < currentNumber db).

End LogStore.

Import LogStore.

(** ** The providers: [callGeminiAPI] and [callOpenRouterAPI] *)

Module Provider.

(** One element of [formattedLogs]. *)
Record FormattedLog : Type := mkFormattedLog {
  fl_url : string;
  fl_method : string;
  fl_responseBody : string;
  fl_timestamp : Z
}.

(** The request handed to [fetch].  The prompt is a fixed template around
    [JSON.stringify(formattedLogs, null, 2)] and the question; it is
    carried by these two parts. *)
Record ProviderRequest : Type := mkProviderRequest {
  endpoint : string;
  authorization : option string;
  model : option string;
  prompt_logs : list FormattedLog;
  prompt_question : string
}.

(** The response as the calls read it: [response.ok],
    [response.statusText], and what [response.json()] settles to (the
    parsed body, or the parser's error). *)
Record HttpResponse : Type := mkHttpResponse {
  ok : bool;
  statusText : string;
  json : Completion Value
}.

(** The network: what [fetch] settles to for a request. *)
Definition Network : Type := ProviderRequest → Completion HttpResponse.

(** The range of time values [Date] accepts; [toISOString] throws a
    [RangeError] outside it. *)
Definition MAX_TIME : Z := 8640000000000000.

Definition toISOString_ok (t : Z) : bool :=
  (- MAX_TIME <=? t) && (t <=? MAX_TIME).

Definition formatLog (log : RequestData) : FormattedLog :=
  {| fl_url := url log; fl_method := method log;
     fl_responseBody := responseBody log; fl_timestamp := timestamp log |}.

(** [logs.map(log => ({ ..., timestamp: new Date(log.timestamp).toISOString() }))]. *)
Definition formatLogs (logs : list RequestData) : Completion (list FormattedLog) :=
  if forallb (λ log, toISOString_ok (timestamp log)) logs
  then Normal (formatLog <$> logs)
  else Throw "Invalid time value".

(** The model named in the Gemini endpoint: the two-provider background.js
    and the single-provider one differ in it, and in nothing else of
    [callGeminiAPI]. *)
Definition GEMINI_MODEL : string := "gemini-1.5-flash".
Definition GEMINI_MODEL_SINGLE : string := "gemini-1.5-flash-latest".

Definition geminiRequest (modelId apiKey : string) (fl : list FormattedLog)
    (question : string) : ProviderRequest :=
  {| endpoint :=
       "https://generativelanguage.googleapis.com/v1beta/models/"
         +:+ modelId +:+ ":generateContent?key=" +:+ apiKey;
     authorization := None;
     model := None;
     prompt_logs := fl;
     prompt_question := question |}.

Definition openRouterRequest (apiKey : string) (fl : list FormattedLog)
    (question : string) : ProviderRequest :=
  {| endpoint := "https://openrouter.ai/api/v1/chat/completions";
     authorization := Some ("Bearer " +:+ apiKey);
     model := Some "google/gemini-flash-1.5";
     prompt_logs := fl;
     prompt_question := question |}.

(** The body of [callGeminiAPI]'s [try] block. *)
Definition geminiExchange (response : HttpResponse) : Completion Value :=
  if negb (ok response) then
    errorData ← json response;
    err ← get errorData (Name "error");
    m ← get err (Name "message");
    Throw ("Gemini API error: "
             +:+ toString (orElse m (VString (statusText response))))
  else
    data ← json response;
    candidates ← get data (Name "candidates");
    let text :=
      getOpt (getOpt (getOpt (getOpt (getOpt candidates (Index 0))
                                (Name "content")) (Name "parts")) (Index 0))
             (Name "text") in
    Normal (orElse text (VString "No answer found.")).

(** The body of [callOpenRouterAPI]'s [try] block. *)
Definition openRouterExchange (response : HttpResponse) : Completion Value :=
  if negb (ok response) then
    errorData ← json response;
    err ← get errorData (Name "error");
    m ← get err (Name "message");
    Throw ("OpenRouter API error: "
             +:+ toString (orElse m (VString (statusText response))))
  else
    data ← json response;
    choices ← get data (Name "choices");
    let content :=
      getOpt (getOpt (getOpt choices (Index 0)) (Name "message"))
             (Name "content") in
    Normal (orElse content (VString "No answer found.")).

(** [catch (error) { throw new Error(prefix + error.message) }]. *)
Definition rethrow {A} (prefix : string) (c : Completion A) : Completion A :=
  match c with
  | Normal a => Normal a
  | Throw e => Throw (prefix +:+ e)
  end.

(** Both calls return the requests they handed to [fetch] (none when the
    logs cannot be formatted, else one) and their settlement. *)
Definition callGeminiAPI (modelId : string) (net : Network) (apiKey : string)
    (logs : list RequestData) (question : string)
  : list ProviderRequest * Completion Value :=
  match formatLogs logs with
  | Throw e => ([], Throw e)
  | Normal fl =>
      let req := geminiRequest modelId apiKey fl question in
      ([req],
       rethrow "Failed to communicate with Gemini API: "
               (net req ≫= geminiExchange))
  end.

Definition callOpenRouterAPI (net : Network) (apiKey : string)
    (logs : list RequestData) (question : string)
  : list ProviderRequest * Completion Value :=
  match formatLogs logs with
  | Throw e => ([], Throw e)
  | Normal fl =>
      let req := openRouterRequest apiKey fl question in
      ([req],
       rethrow "Failed to communicate with OpenRouter API: "
               (net req ≫= openRouterExchange))
  end.

End Provider.

Import Provider.

(** ** The messages the scripts exchange *)

Module Wire.

(** The data of an [INTERCEPTED_REQUEST] window message.  The interceptor
    builds it from six properties; [ir_id] stands for an [id] property,
    which the interceptor never sets but which a message posted by the
    page itself may carry. *)
Record InterceptedRequest : Type := mkInterceptedRequest {
  ir_url : string;
  ir_method : string;
  ir_responseBody : string;
  ir_contentType : option string;
  ir_timestamp : Z;
  ir_id : option Z
}.

(** What [chrome.runtime.onMessage] receives, by [message.type]. *)
Inductive Message : Type :=
| CLEAR_ALL_LOGS
| DELETE_LOG (logId : string)
| NEW_PAGE_LOAD (pageLoadId : string)
| INTERCEPTED_REQUEST (data : InterceptedRequest) (pageLoadId : string)
| GET_LOGS (pageLoadId : string)
| ASK_GEMINI (pageLoadId : string) (question : string)
| OTHER (type : string).

(** The data of a window [message] event, by [event.data.type]. *)
Inductive WindowData : Type :=
| GEMINI_INTERCEPTOR_STATE (isActive : Value)
| INTERCEPTED (data : InterceptedRequest)
| UNRELATED.

(** What [sendResponse] is given. *)
Inductive Reply : Type :=
| ReplyStatusOk
| ReplyError (error : string)
| ReplyDeleted
| ReplyNotDeleted (error : string)
| ReplyLogs (logs : list RequestData)
| ReplyAnswer (answer : Value).

End Wire.

Import Wire.

(** ** The service worker: [chrome.runtime.onMessage] of background.js *)

Module Background.

(** What a listener invocation does, in order.  A store call carries what
    its promise settled to; [console.error] is recorded once per failed
    call. *)
Inductive Effect : Type :=
| StoreAdd (requestData : RequestData) (settled : Completion Z)
| StoreClear (settled : Completion unit)
| StoreDelete (key : Num) (settled : Completion unit)
| StoreQuery (session : string)
| Fetch (req : ProviderRequest)
| SendResponse (r : Reply)
| ConsoleError (message : string).

(** The result of
    [chrome.storage.sync.get(['apiProvider', 'geminiApiKey', 'openrouterApiKey'])]. *)
Record SyncStorage : Type := mkSyncStorage {
  apiProvider : option string;
  geminiApiKey : option string;
  openrouterApiKey : option string
}.

(** What the platform answers during one listener invocation. *)
Record Env : Type := mkEnv {
  engine : Engine;
  storage : SyncStorage;
  net : Network
}.

Definition MISSING_KEY : string :=
  "API key not found. Please set it in the extension settings.".
Definition INVALID_KEY : string :=
  "Invalid API key format. Please check your API key in the settings.".
Definition MISSING_OPENROUTER_KEY : string :=
  "OpenRouter API key not found. Please set it in the extension settings.".

(** [try { ... sendResponse({ answer }) } catch (error) { sendResponse({ error }) }]
    around a provider call. *)
Definition answerOrError (call : list ProviderRequest * Completion Value)
  : list Effect :=
  ((Fetch <$> call.1) ++
   match call.2 with
   | Normal answer => [SendResponse (ReplyAnswer answer)]
   | Throw e => [ConsoleError e; SendResponse (ReplyError e)]
   end)%list.

(** The [gemini] branch; it is also the whole [ASK_GEMINI] handler of the
    single-provider background.js. *)
Definition askGemini (modelId : string) (env : Env) (key : option string)
    (session question : string) (db : Database) : list Effect :=
  if negb (truthy_str key) then [SendResponse (ReplyError MISSING_KEY)]
  else
    let k := default "" key in
    if negb (startsWith "AI" k) || (String.length k <? 10)%nat
    then [SendResponse (ReplyError INVALID_KEY)]
    else
      StoreQuery session ::
      match getRequestsByPageLoadId (engine env) session db with
      | Throw e => [ConsoleError e; SendResponse (ReplyError e)]
      | Normal logs =>
          answerOrError (callGeminiAPI modelId (net env) k logs question)
      end.

(** The [openrouter] branch. *)
Definition askOpenRouter (env : Env) (key : option string)
    (session question : string) (db : Database) : list Effect :=
  if negb (truthy_str key)
  then [SendResponse (ReplyError MISSING_OPENROUTER_KEY)]
  else
    StoreQuery session ::
    match getRequestsByPageLoadId (engine env) session db with
    | Throw e => [ConsoleError e; SendResponse (ReplyError e)]
    | Normal logs =>
        answerOrError
          (callOpenRouterAPI (net env) (default "" key) logs question)
    end.

(** [const apiProvider = result.apiProvider || 'gemini'] and the
    [if / else if] on it; there is no final [else]. *)
Definition onAsk (env : Env) (session question : string) (db : Database)
  : list Effect :=
  let result := storage env in
  let provider :=
    if truthy_str (apiProvider result)
    then default "" (apiProvider result) else "gemini" in
  if String.eqb provider "gemini" then
    askGemini GEMINI_MODEL env (geminiApiKey result) session question db
  else if String.eqb provider "openrouter" then
    askOpenRouter env (openrouterApiKey result) session question db
  else [].

(** The object literal handed to [saveRequest]: six properties, no [id]. *)
Definition toRequestData (data : InterceptedRequest) (session : string)
  : RequestData :=
  {| url := ir_url data; method := ir_method data;
     responseBody := ir_responseBody data;
     contentType := ir_contentType data;
     timestamp := ir_timestamp data;
     pageLoadId := session; id := None |}.

(** [message.contentType && message.contentType.includes('application/json')]. *)
Definition isJson (ct : option string) : bool :=
  truthy_str ct && includes "application/json" (default "" ct).

Definition onMessage (env : Env) (message : Message) (db : Database)
  : list Effect * Database :=
  match message with
  | CLEAR_ALL_LOGS =>
      let '(r, db') := clearAllRequests (engine env) db in
      (StoreClear r ::
         match r with
         | Normal _ => [SendResponse ReplyStatusOk]
         | Throw e => [ConsoleError e; SendResponse (ReplyError e)]
         end, db')
  | DELETE_LOG logId =>
      let key := parseInt logId in
      let '(r, db') := deleteRequestById (engine env) key db in
      (StoreDelete key r ::
         match r with
         | Normal _ => [SendResponse ReplyDeleted]
         | Throw e => [ConsoleError e; SendResponse (ReplyNotDeleted e)]
         end, db')
  | NEW_PAGE_LOAD _ =>
      let '(r, db') := clearAllRequests (engine env) db in
      (StoreClear r ::
         match r with
         | Normal _ => []
         | Throw e => [ConsoleError e]
         end, db')
  | INTERCEPTED_REQUEST data session =>
      if isJson (ir_contentType data) then
        let requestData := toRequestData data session in
        let '(r, db') := saveRequest (engine env) requestData db in
        (StoreAdd requestData r ::
           match r with
           | Normal _ => []
           | Throw e => [ConsoleError e]
           end, db')
      else ([], db)
  | GET_LOGS session =>
      (StoreQuery session ::
         match getRequestsByPageLoadId (engine env) session db with
         | Normal logs => [SendResponse (ReplyLogs logs)]
         | Throw e => [ConsoleError e; SendResponse (ReplyError e)]
         end, db)
  | ASK_GEMINI session question => (onAsk env session question db, db)
  | OTHER _ => ([], db)
  end.

(** The listener of the single-provider background.js: no [DELETE_LOG]
    branch, and [ASK_GEMINI] reads the Gemini key only. *)
Definition onMessage_single (env : Env) (message : Message) (db : Database)
  : list Effect * Database :=
  match message with
  | DELETE_LOG _ => ([], db)
  | ASK_GEMINI session question =>
      (askGemini GEMINI_MODEL_SINGLE env (geminiApiKey (storage env)) session
         question db, db)
  | _ => onMessage env message db
  end.

(** A run of the listener over the messages delivered to it, each with
    what the platform answered. *)
Fixpoint run (deliveries : list (Env * Message)) (db : Database)
  : list Effect * Database :=
  match deliveries with
  | [] => ([], db)
  | (env, m) :: rest =>
      let '(e1, db1) := onMessage env m db in
      let '(e2, db2) := run rest db1 in
      ((e1 ++ e2)%list, db2)
  end.

(** The ids the store assigned, in the order the puts completed. *)
Fixpoint assignedIds (effects : list Effect) : list Z :=
  match effects with
  | [] => []
  | StoreAdd _ (Normal k) :: rest => k :: assignedIds rest
  | _ :: rest => assignedIds rest
  end.

Definition isSend (e : Effect) : bool :=
  match e with SendResponse _ => true | _ => false end.
Definition isFetch (e : Effect) : bool :=
  match e with Fetch _ => true | _ => false end.
Definition isStoreQuery (e : Effect) : bool :=
  match e with StoreQuery _ => true | _ => false end.
Definition isFailure (e : Effect) : bool :=
  match e with
  | ConsoleError _ | SendResponse (ReplyError _)
  | SendResponse (ReplyNotDeleted _) => true
  | _ => false
  end.

End Background.

Import Background.

(** ** The content script: content.js *)

Module ContentScript.

(** The window [message] listener: a same-window [INTERCEPTED_REQUEST] is
    forwarded as [{ ...event.data, pageLoadId }]. *)
Definition onWindowMessage (pageLoadId : string) (sameWindow : bool)
    (data : WindowData) : option Message :=
  if sameWindow then
    match data with
    | INTERCEPTED d => Some (INTERCEPTED_REQUEST d pageLoadId)
    | _ => None
    end
  else None.

(** The announcement sent once when the script starts. *)
Definition announce (pageLoadId : string) : Message :=
  NEW_PAGE_LOAD pageLoadId.

(** [SET_ACTIVATION_STATE] from the popup is relayed to the page. *)
Definition onSetActivationState (isActive : Value) : WindowData :=
  GEMINI_INTERCEPTOR_STATE isActive.

End ContentScript.

(** ** The interceptor: interceptor.js *)

Module Interceptor.

(** A [Response] object: its [Content-Type] header, what reading its body
    stream as text settles to, and whether the stream has been taken. *)
Record Response : Type := mkResponse {
  contentTypeHeader : option string;
  bodyText : Completion string;
  bodyUsed : bool
}.

Definition used (o : Response) : Response :=
  {| contentTypeHeader := contentTypeHeader o; bodyText := bodyText o;
     bodyUsed := true |}.

(** [response.clone()]: a new object over a branch of the stream; a
    [TypeError] when the stream has been taken.  Objects live in a heap and
    are named by their position in it. *)
Definition clone (r : nat) (h : list Response)
  : Completion nat * list Response :=
  match h !! r with
  | Some o =>
      if bodyUsed o then (Throw "Response body is already used", h)
      else (Normal (length h), (h ++ [o])%list)
  | None => (Throw "response.clone is not a function", h)
  end.

(** [response.text()]: takes the stream of that object at once and
    settles later with the decoded text or the decoding error. *)
Definition text (r : nat) (h : list Response)
  : Completion string * list Response :=
  match h !! r with
  | Some o =>
      if bodyUsed o then (Throw "body stream already read", h)
      else (bodyText o, <[r := used o]> h)
  | None => (Throw "responseClone.text is not a function", h)
  end.

(** [args[0]]: a [Request] object, or any other value ([None] stands for
    [undefined] and [null], [Some s] for a value whose [toString()] is
    [s]). *)
Inductive FetchInput : Type :=
| RequestObject (url method : string)
| Resource (v : option string).

(** The arguments of a [fetch] call; [initMethod] is [args[1]?.method]. *)
Record FetchArgs : Type := mkFetchArgs {
  input : FetchInput;
  initMethod : option string
}.

(** The page's primitive before patching. *)
Definition OriginalFetch : Type :=
  FetchArgs → list Response → Completion nat * list Response.

(** The continuation registered on [responseClone.text()]: the names the
    closure captured and what the read settles to. *)
Record Pending : Type := mkPending {
  p_response : nat;
  p_clone : nat;
  p_url : option string;
  p_method : string;
  p_settled : Completion string
}.

Inductive Event : Type :=
| EvOriginalFetch (args : FetchArgs)
| EvOriginalOpen (x : nat) (method : string) (url : option string)
| EvOriginalSend (x : nat)
| EvPageOnload (x : nat) (handler : nat)
| EvPostMessage (data : InterceptedRequest)
| EvConsoleError (message : string)
| EvUncaught (message : string).

Definition isPost (e : Event) : bool :=
  match e with EvPostMessage _ => true | _ => false end.

(** What a call of the patched [fetch] leaves behind. *)
Record FetchCall : Type := mkFetchCall {
  events : list Event;
  returned : Completion nat;
  heap_after : list Response;
  scheduled : option Pending
}.

(** [window.fetch = async function(...args) { ... }], up to its [return]. *)
Definition window_fetch (originalFetch : OriginalFetch) (args : FetchArgs)
    (h : list Response) : FetchCall :=
  let url :=
    match input args with
    | RequestObject u _ => Some u
    | Resource v => v
    end in
  let method :=
    match input args with
    | RequestObject _ m => m
    | Resource _ =>
        if truthy_str (initMethod args)
        then default "" (initMethod args) else "GET"
    end in
  let called := [EvOriginalFetch args] in
  match originalFetch args h with
  | (Throw e, h1) =>
      {| events := called; returned := Throw e; heap_after := h1;
         scheduled := None |}
  | (Normal response, h1) =>
      match clone response h1 with
      | (Throw e, h2) =>
          {| events := called; returned := Throw e; heap_after := h2;
             scheduled := None |}
      | (Normal responseClone, h2) =>
          let '(settled, h3) := text responseClone h2 in
          {| events := called; returned := Normal response;
             heap_after := h3;
             scheduled :=
               Some {| p_response := response; p_clone := responseClone;
                       p_url := url; p_method := method;
                       p_settled := settled |} |}
      end
  end.

(** The [.then(responseBody => ...)] and [.catch(error => ...)] pair, run
    when the read settles, with the flag and the clock of that moment. *)
Definition onTextSettled (isActive : Value) (now : Z) (p : Pending)
    (h : list Response) : list Event :=
  match p_settled p with
  | Throw e => [EvConsoleError e]
  | Normal responseBody =>
      if truthy isActive then
        let contentType := (h !! p_response p) ≫= contentTypeHeader in
        match p_url p with
        | None =>
            [EvConsoleError
               "Cannot read properties of undefined (reading 'toString')"]
        | Some u =>
            [EvPostMessage
               {| ir_url := u; ir_method := p_method p;
                  ir_responseBody := responseBody;
                  ir_contentType := contentType;
                  ir_timestamp := now; ir_id := None |}]
        end
      else []
  end.

(** The value of [xhr.onload]: nothing, a handler of the page, or the
    function [send] installs, which closes over the handler it found.  A
    handler of the page stands here for one that returns and leaves the
    object as it found it; [PageHandlers] below has the others. *)
Inductive Onload : Type :=
| NoOnload
| PageHandler (handler : nat)
| Patched (originalOnload : Onload).

(** An [XMLHttpRequest] object: [_requestMethod] and [_requestUrl] as
    [open] stored them (both unset before), and [onload]. *)
Record Xhr : Type := mkXhr {
  opened : option (string * option string);
  onload : Onload
}.

Definition newXhr : Xhr := {| opened := None; onload := NoOnload |}.

(** What the object holds when [load] fires. *)
Record XhrResponse : Type := mkXhrResponse {
  responseType : string;
  responseText : string;
  xhrContentType : option string
}.

(** The patched [open]. *)
Definition xhr_open (n : nat) (x : Xhr) (method : string)
    (url : option string) : Xhr * list Event :=
  ({| opened := Some (method, url); onload := onload x |},
   [EvOriginalOpen n method url]).

(** The patched [send]. *)
Definition xhr_send (n : nat) (x : Xhr) : Xhr * list Event :=
  ({| opened := opened x; onload := Patched (onload x) |},
   [EvOriginalSend n]).

(** The armed part of the installed handler.  [this.responseText] throws
    unless [responseType] is the empty string or [text]; [toString] throws
    on an absent URL.  The flag tells whether it completed. *)
Definition xhr_capture (x : Xhr) (resp : XhrResponse) (now : Z)
  : list Event * bool :=
  if negb (String.eqb (responseType resp) ""
           || String.eqb (responseType resp) "text")
  then ([EvUncaught "InvalidStateError"], false)
  else
    match opened x with
    | Some (m, Some u) =>
        ([EvPostMessage
            {| ir_url := u; ir_method := m;
               ir_responseBody := responseText resp;
               ir_contentType := xhrContentType resp;
               ir_timestamp := now; ir_id := None |}], true)
    | _ =>
        ([EvUncaught
            "Cannot read properties of undefined (reading 'toString')"],
         false)
    end.

(** Running the value of [onload] when [load] fires. *)
Fixpoint run_onload (isActive : Value) (n : nat) (x : Xhr)
    (resp : XhrResponse) (now : Z) (h : Onload) : list Event * bool :=
  match h with
  | NoOnload => ([], true)
  | PageHandler f => ([EvPageOnload n f], true)
  | Patched originalOnload =>
      let '(ev, completed) := run_onload isActive n x resp now originalOnload in
      if completed then
        if truthy isActive then
          let '(ev', completed') := xhr_capture x resp now in
          ((ev ++ ev')%list, completed')
        else (ev, true)
      else (ev, false)
  end.

(** The injected script's state: the flag, the response objects, the
    request objects. *)
Record State : Type := mkState {
  isActive : Value;
  heap : list Response;
  xhrs : gmap nat Xhr
}.

(** The script starts armed. *)
Definition initial : State :=
  {| isActive := VBool true; heap := []; xhrs := ∅ |}.

(** What reaches the injected script. *)
Inductive Input : Type :=
| WindowMessage (sameWindow : bool) (data : WindowData)
| PageFetch (args : FetchArgs)
| TextSettled (p : Pending) (now : Z)
| PageSetOnload (x : nat) (handler : nat)
| PageOpen (x : nat) (method : string) (url : option string)
| PageSend (x : nat)
| Load (x : nat) (resp : XhrResponse) (now : Z).

Definition xhrOf (st : State) (x : nat) : Xhr := default newXhr (xhrs st !! x).

Definition step (originalFetch : OriginalFetch) (st : State) (i : Input)
  : State * list Event :=
  match i with
  | WindowMessage sameWindow data =>
      match sameWindow, data with
      | true, GEMINI_INTERCEPTOR_STATE v =>
          ({| isActive := v; heap := heap st; xhrs := xhrs st |}, [])
      | _, _ => (st, [])
      end
  | PageFetch args =>
      let c := window_fetch originalFetch args (heap st) in
      ({| isActive := isActive st; heap := heap_after c; xhrs := xhrs st |},
       events c)
  | TextSettled p now => (st, onTextSettled (isActive st) now p (heap st))
  | PageSetOnload x f =>
      ({| isActive := isActive st; heap := heap st;
          xhrs := <[x := {| opened := opened (xhrOf st x);
                           onload := PageHandler f |}]> (xhrs st) |}, [])
  | PageOpen x method url =>
      let '(o, ev) := xhr_open x (xhrOf st x) method url in
      ({| isActive := isActive st; heap := heap st;
          xhrs := <[x := o]> (xhrs st) |}, ev)
  | PageSend x =>
      let '(o, ev) := xhr_send x (xhrOf st x) in
      ({| isActive := isActive st; heap := heap st;
          xhrs := <[x := o]> (xhrs st) |}, ev)
  | Load x resp now =>
      (st,
       (run_onload (isActive st) x (xhrOf st x) resp now
                   (onload (xhrOf st x))).1)
  end.

Fixpoint run (originalFetch : OriginalFetch) (st : State)
    (inputs : list Input) : State * list Event :=
  match inputs with
  | [] => (st, [])
  | i :: rest =>
      let '(st1, e1) := step originalFetch st i in
      let '(st2, e2) := run originalFetch st1 rest in
      (st2, (e1 ++ e2)%list)
  end.

(** An input that writes the flag: the state message from the window
    itself. *)
Definition isStateMessage (i : Input) : bool :=
  match i with
  | WindowMessage true (GEMINI_INTERCEPTOR_STATE _) => true
  | _ => false
  end.

(** The events [onload] of a page that was never patched would see. *)
Fixpoint pageHandlers (n : nat) (h : Onload) : list Event :=
  match h with
  | NoOnload => []
  | PageHandler f => [EvPageOnload n f]
  | Patched originalOnload => pageHandlers n originalOnload
  end.

End Interceptor.

(** ** Handlers of the page that act on the request object *)

Module PageHandlers.

Import Interceptor.

(** [Interceptor.run_onload] takes the page's handler to return and to
    leave the object as it found it.  The installed function calls it with
    no [try], on the object itself, so what it does shows in what follows:
    here a handler may call [open] on the object again before it is done,
    and it returns or throws. *)
Record Behaviour : Type := mkBehaviour {
  reopens : option (string * option string);
  throws : option string
}.

Definition returns : Behaviour := {| reopens := None; throws := None |}.

(** [open] on a loaded object takes it back to the opened state:
    [responseText] and [response] read as the empty string and
    [getResponseHeader] answers [null]. *)
Definition reset (resp : XhrResponse) : XhrResponse :=
  {| responseType := responseType resp; responseText := "";
     xhrContentType := None |}.

(** A handler of the page, run on the object: what it did, whether it
    returned, and the object as it leaves it.  Its call of [open] goes
    through the patched one. *)
Definition run_handler (b : Behaviour) (n f : nat) (x : Xhr)
    (resp : XhrResponse) : list Event * bool * (Xhr * XhrResponse) :=
  let '(x1, resp1, ev1) :=
    match reopens b with
    | Some (method, url) =>
        let '(o, ev) := xhr_open n x method url in (o, reset resp, ev)
    | None => (x, resp, [])
    end in
  match throws b with
  | Some message =>
      ((EvPageOnload n f :: ev1) ++ [EvUncaught message], false, (x1, resp1))%list
  | None => (EvPageOnload n f :: ev1, true, (x1, resp1))
  end.

(** Running the value of [onload] when [load] fires, the page's handlers
    behaving as [behaviour] tells. *)
Fixpoint run_onload (behaviour : nat → Behaviour) (isActive : Value)
    (n : nat) (x : Xhr) (resp : XhrResponse) (now : Z) (h : Onload)
  : list Event * bool * (Xhr * XhrResponse) :=
  match h with
  | NoOnload => ([], true, (x, resp))
  | PageHandler f => run_handler (behaviour f) n f x resp
  | Patched originalOnload =>
      let '(ev, completed, (x1, resp1)) :=
        run_onload behaviour isActive n x resp now originalOnload in
      if completed then
        if truthy isActive then
          let '(ev', completed') := xhr_capture x1 resp1 now in
          ((ev ++ ev')%list, completed', (x1, resp1))
        else (ev, true, (x1, resp1))
      else (ev, false, (x1, resp1))
  end.

(** The capture of a text response. *)
Definition capture (url method responseBody : string)
    (contentType : option string) (now : Z) : Event :=
  EvPostMessage
    {| ir_url := url; ir_method := method; ir_responseBody := responseBody;
       ir_contentType := contentType; ir_timestamp := now; ir_id := None |}.

End PageHandlers.

(** ** The three scripts together *)

Module Pipeline.

(** The content script's [message] listener sits on the same window as the
    interceptor's.  It is handed every message that reaches the window,
    whoever posted it ... *)
Definition arriving (i : Interceptor.Input) : list (bool * WindowData) :=
  match i with
  | Interceptor.WindowMessage sameWindow data => [(sameWindow, data)]
  | _ => []
  end.

(** ... and every capture the interceptor posts, which comes from the
    window itself. *)
Definition posted (events : list Interceptor.Event)
  : list (bool * WindowData) :=
  omap (λ e, match e with
             | Interceptor.EvPostMessage d => Some (true, INTERCEPTED d)
             | _ => None
             end) events.

(** The messages the listener is handed while the injected script goes
    through the inputs: each with whether it comes from the window
    itself. *)
Fixpoint windowMessages (originalFetch : Interceptor.OriginalFetch)
    (st : Interceptor.State) (inputs : list Interceptor.Input)
  : list (bool * WindowData) :=
  match inputs with
  | [] => []
  | i :: rest =>
      let '(st1, events) := Interceptor.step originalFetch st i in
      (arriving i ++ posted events
         ++ windowMessages originalFetch st1 rest)%list
  end.

(** What the content script sends to the listener for them. *)
Definition forwarded (pageLoadId : string)
    (messages : list (bool * WindowData)) : list Message :=
  omap (λ m, ContentScript.onWindowMessage pageLoadId m.1 m.2) messages.

(** A page load with the script injected: the announcement, then what the
    content script forwards while the script, armed as it starts, goes
    through the inputs; all served by the same platform. *)
Definition pageLoad (env : Env) (originalFetch : Interceptor.OriginalFetch)
    (pageLoadId : string) (inputs : list Interceptor.Input) (db : Database)
  : list Effect * Database :=
  Background.run
    ((λ m, (env, m)) <$>
       ContentScript.announce pageLoadId
         :: forwarded pageLoadId
              (windowMessages originalFetch Interceptor.initial inputs))
    db.


End Pipeline.

(** ** The popup: popup.js *)

Module Popup.

Section Platform.

(** [String.prototype.toLowerCase] and [String.prototype.trim], as the
    platform provides them. *)
Variable toLowerCase : string → string.
Variable trim : string → string.

(** [log.url.toLowerCase().includes(k) || log.responseBody.toLowerCase().includes(k)]. *)
Definition matches (keyword : string) (log : RequestData) : bool :=
  includes keyword (toLowerCase (url log))
  || includes keyword (toLowerCase (responseBody log)).

(** [logs.sort((a, b) => b.timestamp - a.timestamp)]: the stable sort by
    descending timestamp. *)
Fixpoint insertNewest (x : RequestData) (l : list RequestData)
  : list RequestData :=
  match l with
  | [] => [x]
  | y :: l' =>
      if timestamp y <=? timestamp x then x :: y :: l'
      else y :: insertNewest x l'
  end.

Fixpoint sortNewestFirst (logs : list RequestData) : list RequestData :=
  match logs with
  | [] => []
  | x :: logs' => insertNewest x (sortNewestFirst logs')
  end.

(** [s.substring(1)]. *)
Definition substring1 (s : string) : string :=
  match s with
  | String _ r => r
  | EmptyString => EmptyString
  end.

(** What [displayLogs] renders: one element per log, in order, and the
    text of the counter. *)
Record LogsView : Type := mkLogsView {
  items : list RequestData;
  countText : string
}.

(** [displayLogs] of the popup with the delete button: a search term
    starting with [!] excludes, any other includes. *)
Definition displayLogs (searchInput : string) (logs : list RequestData)
  : LogsView :=
  match logs with
  | [] => {| items := []; countText := "0 JSON responses captured" |}
  | _ =>
      let sorted := sortNewestFirst logs in
      let searchTerm := toLowerCase searchInput in
      let filteredLogs :=
        if negb (String.eqb searchTerm "") then
          if startsWith "!" searchTerm then
            let excludeKeyword := trim (substring1 searchTerm) in
            if negb (String.eqb excludeKeyword "")
            then List.filter (λ log, negb (matches excludeKeyword log)) sorted
            else sorted
          else List.filter (matches searchTerm) sorted
        else sorted in
      {| items := filteredLogs;
         countText :=
           pretty (length filteredLogs) +:+ " of " +:+ pretty (length sorted)
             +:+ " JSON responses captured" |}
  end.

(** [displayLogs] of the earlier popup: the search term only includes. *)
Definition displayLogs_plain (searchInput : string) (logs : list RequestData)
  : LogsView :=
  match logs with
  | [] => {| items := []; countText := "0 JSON responses captured" |}
  | _ =>
      let sorted := sortNewestFirst logs in
      let searchTerm := toLowerCase searchInput in
      let filteredLogs :=
        if negb (String.eqb searchTerm "")
        then List.filter (matches searchTerm) sorted
        else sorted in
      {| items := filteredLogs;
         countText :=
           pretty (length filteredLogs) +:+ " of " +:+ pretty (length sorted)
             +:+ " JSON responses captured" |}
  end.



(** What [showAnswer] renders: an error message, with or without the link
    to the key settings, or the answer as plain text. *)
Inductive AnswerView : Type :=
| ErrorMessage (text : string) (settingsLink : bool)
| AnswerText (text : string).

Definition showAnswer (answer : string) : AnswerView :=
  if startsWith "Error:" answer
  then ErrorMessage answer (includes "API key" answer)
  else AnswerText answer.

(** [askGemini], up to [sendMessage]: a blank question is refused on the
    spot, any other is sent trimmed with the current page load's id. *)
Definition askGemini (currentPageLoadId questionInput : string)
  : AnswerView + Message :=
  let question := trim questionInput in
  if String.eqb question ""
  then inl (showAnswer "Error: Please enter a question")
  else inr (ASK_GEMINI currentPageLoadId question).

(** The callback of that [sendMessage], given the reply.  [showAnswer]
    calls [startsWith] on what it is given, which throws when that is not a
    string. *)
Definition onAskResponse (response : Reply) : Completion AnswerView :=
  match response with
  | ReplyError e =>
      if negb (String.eqb e "") then Normal (showAnswer ("Error: " +:+ e))
      else Throw "Cannot read properties of undefined (reading 'startsWith')"
  | ReplyNotDeleted e =>
      if negb (String.eqb e "") then Normal (showAnswer ("Error: " +:+ e))
      else Throw "Cannot read properties of undefined (reading 'startsWith')"
  | ReplyAnswer (VString s) => Normal (showAnswer s)
  | ReplyAnswer VUndefined
  | ReplyAnswer VNull | ReplyStatusOk | ReplyDeleted | ReplyLogs _ =>
      Throw "Cannot read properties of undefined (reading 'startsWith')"
  | ReplyAnswer _ => Throw "answer.startsWith is not a function"
  end.

End Platform.

(** The order of the list: a log comes before any log that is not newer. *)
Definition newestFirst (a b : RequestData) : Prop :=
  timestamp b ≤ timestamp a.

(** [data-log-id="${log.id}"], read back as [dataset.logId]: the key in
    plain decimal, as [ToString] writes an integer below [2 ^ 53], or
    [undefined] for a log without an id. *)
Definition dataLogId (log : RequestData) : string :=
  match id log with
  | Some k => pretty k
  | None => "undefined"
  end.

(** The element [displayLogs] builds for a log is parsed from markup into
    which [log.url] and [log.method] are spliced as they are, ahead of the
    delete button, and the click handler goes to the first element of class
    [delete-button] in it.  Where neither of the two holds a [<] they are
    text, and that element is the log's own button with its [data-log-id];
    where one does, the element depends on that markup, which is not
    modelled: [None]. *)
Definition deleteButtonLogId (log : RequestData) : option string :=
  if includes "<" (url log) || includes "<" (method log) then None
  else Some (dataLogId log).

(** The click handler of the delete button, given the [dataset.logId] of
    the element it sits on. *)
Definition onDeleteClick (logIdToDelete : string) : option Message :=
  if negb (String.eqb logIdToDelete "")
  then Some (DELETE_LOG logIdToDelete)
  else None.

(** The [change] listener of the site toggle: the new value of
    [enabledDomains] and the [isActive] of the [SET_ACTIVATION_STATE]
    message sent to the tab. *)
Definition onToggleChange (hostname : string) (isEnabling : bool)
    (enabledDomains : option (list string)) : list string * Value :=
  let domains := default [] enabledDomains in
  let domains' :=
    if isEnabling then
      if bool_decide (hostname ∈ domains) then domains
      else (domains ++ [hostname])%list
    else List.filter (λ domain, negb (String.eqb domain hostname)) domains in
  (domains', VBool isEnabling).

(** The toggle as first shown: [domains.includes(hostname)]. *)
Definition toggleShown (hostname : string)
    (enabledDomains : option (list string)) : bool :=
  bool_decide (hostname ∈ default [] enabledDomains).

(** [saveApiKey] of the two-provider settings form: the values to store,
    or the status shown when the chosen provider's key is blank. *)
Definition saveApiKey (trim : string → string) (provider : string)
    (geminiInput openrouterInput : string) : string + SyncStorage :=
  let geminiApiKey := trim geminiInput in
  let openrouterApiKey := trim openrouterInput in
  if String.eqb provider "gemini" && String.eqb geminiApiKey ""
  then inl "Please enter a Gemini API key"
  else if String.eqb provider "openrouter" && String.eqb openrouterApiKey ""
  then inl "Please enter an OpenRouter API key"
  else inr {| apiProvider := Some provider;
              Background.geminiApiKey := Some geminiApiKey;
              Background.openrouterApiKey := Some openrouterApiKey |}.

End Popup.

(** ** What the listener keeps true of the store *)

Module Invariants.

(** Every record sits under the key its [id] names, the key is one the
    generator handed out, and the record passed the JSON filter. *)
Definition stored_ok (db : Database) : Prop :=
  1 ≤ currentNumber db
  ∧ ∀ k r, records db !! k = Some r →
      id r = Some k ∧ 1 ≤ k < currentNumber db
      ∧ isJson (contentType r) = true.

(** How many replies a list of effects holds. *)
Definition replies (effects : list Effect) : nat :=
  length (List.filter isSend effects).

End Invariants.

(** ** Sample inputs *)

Module Samples.

Definition offline : Network := λ _, Throw "Failed to fetch".

Definition noSettings : SyncStorage :=
  {| apiProvider := None; geminiApiKey := None; openrouterApiKey := None |}.

Definition healthy : Env :=
  {| engine := Healthy; storage := noSettings; net := offline |}.

Definition broken : Env :=
  {| engine := Faulty "QuotaExceededError"; storage := noSettings;
     net := offline |}.

(** A capture of a JSON response, as the interceptor posts it. *)
Definition jsonCapture : InterceptedRequest :=
  {| ir_url := "https://example.test/api/items"; ir_method := "GET";
     ir_responseBody := "[1]";
     ir_contentType := Some "application/json; charset=utf-8";
     ir_timestamp := 1700000000000; ir_id := None |}.

(** A capture of an HTML response. *)
Definition htmlCapture : InterceptedRequest :=
  {| ir_url := "https://example.test/"; ir_method := "GET";
     ir_responseBody := "<html></html>";
     ir_contentType := Some "text/html";
     ir_timestamp := 1700000000001; ir_id := None |}.

(** A message posted by the page itself, carrying an [id] of its own. *)
Definition forgedCapture : InterceptedRequest :=
  {| ir_url := "https://example.test/api/items"; ir_method := "GET";
     ir_responseBody := "[2]";
     ir_contentType := Some "application/json";
     ir_timestamp := 1700000000002; ir_id := Some 1 |}.

(** A JSON response and one whose body does not decode as text. *)
Definition jsonResponse : Interceptor.Response :=
  {| Interceptor.contentTypeHeader := Some "application/json; charset=utf-8";
     Interceptor.bodyText := Normal "[1]";
     Interceptor.bodyUsed := false |}.

Definition undecodableResponse : Interceptor.Response :=
  {| Interceptor.contentTypeHeader := Some "application/json";
     Interceptor.bodyText := Throw "The stream could not be decoded";
     Interceptor.bodyUsed := false |}.

(** A native [fetch] that resolves to a new response object. *)
Definition nativeFetch (o : Interceptor.Response) : Interceptor.OriginalFetch :=
  λ _ h, (Normal (length h), (h ++ [o])%list).

Definition getItems : Interceptor.FetchArgs :=
  {| Interceptor.input := Interceptor.Resource (Some "https://example.test/api/items");
     Interceptor.initMethod := None |}.

Definition unarmed : Interceptor.State :=
  {| Interceptor.isActive := VBool false; Interceptor.heap := [];
     Interceptor.xhrs := ∅ |}.

Definition textXhrResponse : Interceptor.XhrResponse :=
  {| Interceptor.responseType := ""; Interceptor.responseText := "[1]";
     Interceptor.xhrContentType := Some "application/json" |}.

(** A gateway's HTML error page: the status is not a success and the body
    is not JSON. *)
Definition badGateway : HttpResponse :=
  {| ok := false; statusText := "Bad Gateway";
     json := Throw "Unexpected token < in JSON at position 0" |}.

(** A provider error with a message, one without, a success with an
    answer, one without. *)
Definition quotaError : HttpResponse :=
  {| ok := false; statusText := "Too Many Requests";
     json := Normal (VObject [("error",
               VObject [("code", VNumber "429");
                        ("message", VString "Quota exceeded")])]) |}.

Definition bareError : HttpResponse :=
  {| ok := false; statusText := "Forbidden";
     json := Normal (VObject [("error", VObject [("code", VNumber "403")])]) |}.

Definition geminiAnswer : HttpResponse :=
  {| ok := true; statusText := "OK";
     json := Normal (VObject [("candidates",
               VArray [VObject [("content",
                 VObject [("parts",
                   VArray [VObject [("text", VString "a is 1")]])])]])]) |}.

Definition emptyAnswer : HttpResponse :=
  {| ok := true; statusText := "OK";
     json := Normal (VObject [("candidates", VArray [])]) |}.

Definition nullBody : HttpResponse :=
  {| ok := true; statusText := "OK"; json := Normal VNull |}.

Definition replying (r : HttpResponse) : Network := λ _, Normal r.

(** Settings whose provider is the empty string. *)
Definition emptyProvider : Env :=
  {| engine := Healthy;
     storage := {| apiProvider := Some ""; geminiApiKey := None;
                   openrouterApiKey := None |};
     net := offline |}.

Definition unknownProvider : Env :=
  {| engine := Healthy;
     storage := {| apiProvider := Some "openai";
                   geminiApiKey := Some "AIzaSyExampleExample";
                   openrouterApiKey := Some "sk-or-example" |};
     net := replying geminiAnswer |}.

Definition shortGeminiKey : Env :=
  {| engine := Healthy;
     storage := {| apiProvider := Some "gemini"; geminiApiKey := Some "AIza";
                   openrouterApiKey := Some "" |};
     net := replying geminiAnswer |}.

Definition goodGeminiKey : Env :=
  {| engine := Healthy;
     storage := {| apiProvider := None;
                   geminiApiKey := Some "AIzaSyExampleExample";
                   openrouterApiKey := Some "" |};
     net := replying geminiAnswer |}.

Definition openRouterNoKey : Env :=
  {| engine := Healthy;
     storage := {| apiProvider := Some "openrouter";
                   geminiApiKey := Some "AIzaSyExampleExample";
                   openrouterApiKey := Some "" |};
     net := replying geminiAnswer |}.

(** Lower-casing and trimming of ASCII text. *)
Definition asciiLower (s : string) : string :=
  String.string_of_list_ascii
    ((λ c, let n := nat_of_ascii c in
           if (65 <=? n)%nat && (n <=? 90)%nat then ascii_of_nat (n + 32)
           else c) <$> String.list_ascii_of_string s).

Definition asciiTrim (s : string) : string :=
  String.string_of_list_ascii
    (reverse (String.list_ascii_of_string
       (trimStart (String.string_of_list_ascii
          (reverse (String.list_ascii_of_string (trimStart s))))))).

Definition logAt (u body : string) (t k : Z) : RequestData :=
  {| url := u; method := "GET"; responseBody := body;
     contentType := Some "application/json"; timestamp := t;
     pageLoadId := "1700000000000"; id := Some k |}.

Definition threeLogs : list RequestData :=
  [logAt "https://example.test/api/Users" "[1]" 10 1;
   logAt "https://example.test/api/items" "[2]" 30 2;
   logAt "https://example.test/api/users/7" "[3]" 20 3].

(** An armed script right after injection, and an opened request object. *)
Definition openedXhr : Interceptor.Xhr :=
  {| Interceptor.opened := Some ("POST", Some "https://example.test/api/items");
     Interceptor.onload := Interceptor.PageHandler 7 |}.

Definition jsonXhrResponse : Interceptor.XhrResponse :=
  {| Interceptor.responseType := "json"; Interceptor.responseText := "[1]";
     Interceptor.xhrContentType := Some "application/json" |}.


(** A store holding a log of each of two page loads, and the request an
    Ask about the later one hands to the Gemini endpoint. *)
Definition twoSessions : Database :=
  (Background.run
     [(healthy, INTERCEPTED_REQUEST forgedCapture "1600000000000");
      (healthy, INTERCEPTED_REQUEST jsonCapture "1700000000000")]
     emptyDatabase).2.

Definition askAboutItems : ProviderRequest :=
  geminiRequest GEMINI_MODEL "AIzaSyExampleExample"
    [formatLog (with_id 2 (toRequestData jsonCapture "1700000000000"))]
    "what is field a?".


Definition postItems : Interceptor.FetchArgs :=
  {| Interceptor.input :=
       Interceptor.RequestObject "https://example.test/api/items" "POST";
     Interceptor.initMethod := Some "PUT" |}.

End Samples.

(** * Properties *)

(** ** Strings *)

Lemma append_nil (q : string) : "" +:+ q = q.
Proof. reflexivity. Qed.

Lemma append_cons (a : ascii) (p q : string) :
  String a p +:+ q = String a (p +:+ q).
Proof. reflexivity. Qed.

Lemma startsWith_spec (p s : string) :
  startsWith p s = true ↔ ∃ q, s = p +:+ q.
Proof.
  revert s. induction p as [|a p IH]; intros s; simpl.
  - split; [intros _; by exists s | done].
  - destruct s as [|b s].
    + split; [done | intros [q Hq]; discriminate Hq].
    + destruct (decide (a = b)) as [->|Hne].
      * rewrite IH. split; intros [q Hq]; exists q;
          rewrite append_cons in *; congruence.
      * split; [done | intros [q Hq]; rewrite append_cons in Hq; congruence].
Qed.

Lemma includes_spec (needle hay : string) :
  includes needle hay = true ↔ ∃ p q, hay = p +:+ needle +:+ q.
Proof.
  induction hay as [|c hay IH]; simpl.
  - rewrite orb_false_r, startsWith_spec. split.
    + intros [q Hq]. by exists "", q.
    + intros [p [q Hq]]. destruct p; [by exists q | discriminate Hq].
  - rewrite orb_true_iff, startsWith_spec, IH. split.
    + intros [[q Hq] | [p [q Hq]]].
      * by exists "", q.
      * exists (String c p), q. rewrite append_cons. by rewrite Hq.
    + intros [p [q Hq]]. destruct p as [|c' p].
      * left. by exists q.
      * right. exists p, q. rewrite append_cons in Hq. congruence.
Qed.

Lemma truthy_str_Some (v : option string) :
  truthy_str v = true ↔ ∃ s, v = Some s ∧ s ≠ "".
Proof.
  destruct v as [s|]; simpl.
  - rewrite negb_true_iff, String.eqb_neq. split; [by exists s | by intros [? [[= <-] ?]]].
  - split; [done | by intros [? [? ?]]].
Qed.

(** The filter of the listener is exactly: the header is present and
    holds [application/json] as a substring, compared byte for byte. *)
Lemma isJson_spec (ct : option string) :
  isJson ct = true ↔
  ∃ s p q, ct = Some s ∧ s = p +:+ "application/json" +:+ q.
Proof.
  unfold isJson. rewrite andb_true_iff, truthy_str_Some. split.
  - intros [[s [-> Hs]] Hin]. simpl in Hin.
    apply includes_spec in Hin as [p [q Hpq]]. by exists s, p, q.
  - intros [s [p [q [-> ->]]]]. split.
    + eexists; split; [done|]. by destruct p.
    + simpl. apply includes_spec. by exists p, q.
Qed.

Example isJson_charset :
  isJson (Some "application/json; charset=utf-8") = true.
Proof. reflexivity. Qed.

Example isJson_case_sensitive : isJson (Some "Application/JSON") = false.
Proof. reflexivity. Qed.

Example isJson_html : isJson (Some "text/html") = false.
Proof. reflexivity. Qed.

Example isJson_absent : isJson None = false.
Proof. reflexivity. Qed.

(** ** The store *)

Lemma wf_empty : wf emptyDatabase.
Proof. intros k v H. simpl in H. by rewrite lookup_empty in H. Qed.

Lemma store_add_generated (v : RequestData) (db : Database) :
  wf db → id v = None → currentNumber db ≤ MAX_GENERATED_KEY →
  store_add v db =
    (Normal (currentNumber db),
     {| records := <[currentNumber db := with_id (currentNumber db) v]> (records db);
        currentNumber := currentNumber db + 1 |})
  ∧ records db !! currentNumber db = None.
Proof.
  intros Hwf Hid Hmax. unfold store_add. rewrite Hid. simpl.
  destruct (Z.ltb_spec MAX_GENERATED_KEY (currentNumber db)); [lia|].
  destruct (records db !! currentNumber db) as [r|] eqn:Hl; [|done].
  apply Hwf in Hl as [_ [?|?]]; lia.
Qed.

Lemma store_add_wf (v : RequestData) (db db' : Database) (k : Z) :
  wf db → store_add v db = (Normal k, db') → wf db'.
Proof.
  intros Hwf. unfold store_add.
  destruct (id v) as [i|] eqn:Hid.
  - destruct (records db !! i) eqn:Hl; [done|]. intros [= <- <-].
    intros k' v'. simpl. rewrite lookup_insert.
    case_decide as Hk.
    + subst k'. intros [= <-]. split; [done|].
      unfold MAX_GENERATED_KEY in *.
      destruct (Z.leb_spec (currentNumber db) i); lia.
    + intros Hl'. apply Hwf in Hl' as [? ?]. split; [done|].
      destruct (Z.leb_spec (currentNumber db) i); lia.
  - simpl. destruct (Z.ltb_spec MAX_GENERATED_KEY (currentNumber db)); [done|].
    destruct (records db !! currentNumber db) eqn:Hl; [done|]. intros [= <- <-].
    intros k' v'. simpl. rewrite lookup_insert.
    case_decide as Hk.
    + subst k'. intros [= <-]. split; [done | lia].
    + intros Hl'. apply Hwf in Hl' as [? ?]. split; [done | lia].
Qed.

Lemma store_add_failed (v : RequestData) (db db' : Database) (e : string) :
  store_add v db = (Throw e, db') → db' = db.
Proof.
  unfold store_add. repeat case_match; by intros [= <-].
Qed.

Lemma saveRequest_wf (eng : Engine) (v : RequestData) (db : Database) :
  wf db → wf (saveRequest eng v db).2.
Proof.
  intros Hwf. destruct eng as [|e]; simpl; [|done].
  destruct (store_add v db) as [[k|e] db'] eqn:H; simpl.
  - by eapply store_add_wf.
  - by apply store_add_failed in H as ->.
Qed.

Lemma deleteRequestById_wf (eng : Engine) (key : Num) (db : Database) :
  wf db → wf (deleteRequestById eng key db).2.
Proof.
  intros Hwf. destruct eng as [|e], key as [|k]; simpl; try done.
  intros k' v'. simpl. rewrite lookup_delete. case_decide; [done|]. apply Hwf.
Qed.

Lemma clearAllRequests_wf (eng : Engine) (db : Database) :
  wf db → wf (clearAllRequests eng db).2.
Proof.
  intros Hwf. destruct eng as [|e]; simpl; [|done].
  intros k v. simpl. by rewrite lookup_empty.
Qed.

Lemma onMessage_wf (env : Env) (m : Message) (db : Database) :
  wf db → wf (onMessage env m db).2.
Proof.
  intros Hwf. destruct m as [|logId|s|data s|s|s q|t]; simpl; try done.
  - pose proof (clearAllRequests_wf (engine env) db Hwf).
    by destruct (clearAllRequests (engine env) db).
  - pose proof (deleteRequestById_wf (engine env) (parseInt logId) db Hwf).
    by destruct (deleteRequestById (engine env) (parseInt logId) db).
  - pose proof (clearAllRequests_wf (engine env) db Hwf).
    by destruct (clearAllRequests (engine env) db).
  - destruct (isJson (ir_contentType data)); [|done].
    pose proof (saveRequest_wf (engine env) (toRequestData data s) db Hwf).
    by destruct (saveRequest (engine env) (toRequestData data s) db).
Qed.

(** Membership in the answer of a session query. *)
Lemma index_getAll_elem (session : string) (db : Database) (r : RequestData) :
  r ∈ index_getAll session db ↔
  ∃ k, records db !! k = Some r ∧ pageLoadId r = session.
Proof.
  unfold index_getAll. rewrite list_elem_of_fmap. split.
  - intros [[k v] [-> Hin]]. simpl.
    rewrite merge_sort_Permutation in Hin.
    apply elem_of_map_to_list in Hin.
    apply map_lookup_filter_Some in Hin as [? ?]. by exists k.
  - intros [k [Hl Hs]]. exists (k, r). split; [done|].
    rewrite merge_sort_Permutation. apply elem_of_map_to_list.
    by apply map_lookup_filter_Some.
Qed.

Lemma index_getAll_empty (session : string) (db : Database) :
  records db = ∅ → index_getAll session db = [].
Proof.
  intros H. apply elem_of_nil_inv. intros r Hr.
  apply index_getAll_elem in Hr as [k [Hl _]]. by rewrite H, lookup_empty in Hl.
Qed.

Lemma assignedIds_app (e1 e2 : list Effect) :
  assignedIds (e1 ++ e2) = (assignedIds e1 ++ assignedIds e2)%list.
Proof.
  induction e1 as [|e e1 IH]; [done|].
  destruct e as [rd [k|m]| | | | | |]; simpl; by rewrite IH.
Qed.

Lemma answerOrError_no_add (call : list ProviderRequest * Completion Value) :
  Forall (λ e, ∀ rd r, e ≠ StoreAdd rd r) (answerOrError call).
Proof.
  unfold answerOrError. apply Forall_app. split.
  - apply Forall_fmap, Forall_true. by intros req rd r.
  - destruct call.2; repeat constructor; by intros rd r.
Qed.

Lemma onAsk_no_add (env : Env) (s q : string) (db : Database) :
  Forall (λ e, ∀ rd r, e ≠ StoreAdd rd r) (onAsk env s q db).
Proof.
  unfold onAsk, askGemini, askOpenRouter.
  repeat case_match;
    repeat (first [apply answerOrError_no_add | constructor | by intros rd r]).
Qed.

Lemma assignedIds_no_add (es : list Effect) :
  Forall (λ e, ∀ rd r, e ≠ StoreAdd rd r) es → assignedIds es = [].
Proof.
  induction 1 as [|e es He _ IH]; [done|].
  destruct e as [rd r| | | | | |]; simpl; try done. by destruct (He rd r).
Qed.

(** One delivery either assigns no id and leaves the key generator alone,
    or assigns the generator's current number and advances it by one. *)
Lemma onMessage_ids (env : Env) (m : Message) (db : Database) :
  let out := onMessage env m db in
  (assignedIds out.1 = [] ∧ currentNumber out.2 = currentNumber db)
  ∨ (assignedIds out.1 = [currentNumber db]
     ∧ currentNumber out.2 = currentNumber db + 1).
Proof.
  destruct m as [|logId|s|data s|s|s q|t]; simpl.
  - left. by destruct (engine env).
  - left. by destruct (engine env), (parseInt logId).
  - left. by destruct (engine env).
  - destruct (isJson (ir_contentType data)); [|by left].
    destruct (engine env); simpl; [|by left].
    unfold store_add. simpl.
    destruct (MAX_GENERATED_KEY <? currentNumber db); [by left|].
    destruct (records db !! currentNumber db); [by left | by right].
  - left. by destruct (engine env).
  - left. split; [|done]. apply assignedIds_no_add, onAsk_no_add.
  - by left.
Qed.

Lemma run_ids (deliveries : list (Env * Message)) (db : Database) :
  let out := run deliveries db in
  StronglySorted Z.lt (assignedIds out.1)
  ∧ Forall (λ k, currentNumber db ≤ k < currentNumber out.2) (assignedIds out.1)
  ∧ currentNumber db ≤ currentNumber out.2.
Proof.
  revert db. induction deliveries as [|[env m] rest IH]; intros db; simpl.
  - repeat split; [constructor | constructor | lia].
  - pose proof (onMessage_ids env m db) as Hstep.
    destruct (onMessage env m db) as [e1 db1]. simpl in Hstep.
    specialize (IH db1). destruct (run rest db1) as [e2 db2].
    simpl in *. destruct IH as (Hs & Hb & Hle).
    rewrite assignedIds_app.
    destruct Hstep as [[-> Hc] | [-> Hc]]; rewrite Hc in *; simpl.
    + repeat split; [done | done | lia].
    + repeat split; [| | lia].
      * constructor; [done|]. eapply Forall_impl; [exact Hb|]. simpl. lia.
      * constructor; [lia|]. eapply Forall_impl; [exact Hb|]. simpl. lia.
Qed.

(** Splits membership in an explicit list of effects into its cases. *)
Ltac elem_cases H :=
  repeat (apply elem_of_cons in H as [H|H]; [try discriminate H|]);
  try (by apply elem_of_nil in H).

Lemma onMessage_adds_without_id (env : Env) (m : Message) (db : Database)
    (rd : RequestData) (r : Completion Z) :
  StoreAdd rd r ∈ (onMessage env m db).1 → id rd = None.
Proof.
  destruct m as [|logId|s|data s|s|s q|t]; simpl; intros Hin.
  - destruct (clearAllRequests (engine env) db) as [[] ?]; elem_cases Hin.
  - destruct (deleteRequestById (engine env) (parseInt logId) db) as [[] ?];
      elem_cases Hin.
  - destruct (clearAllRequests (engine env) db) as [[] ?]; elem_cases Hin.
  - destruct (isJson (ir_contentType data)); [|elem_cases Hin].
    destruct (saveRequest (engine env) (toRequestData data s) db) as [[] ?];
      elem_cases Hin; by injection Hin as -> _.
  - destruct (getRequestsByPageLoadId (engine env) s db); elem_cases Hin.
  - pose proof (onAsk_no_add env s q db) as Hno.
    rewrite Forall_forall in Hno. by destruct (Hno _ Hin rd r).
  - elem_cases Hin.
Qed.

Lemma run_adds_without_id (deliveries : list (Env * Message)) (db : Database)
    (rd : RequestData) (r : Completion Z) :
  StoreAdd rd r ∈ (run deliveries db).1 → id rd = None.
Proof.
  revert db. induction deliveries as [|[env m] rest IH]; intros db; simpl.
  - by intros ?%elem_of_nil.
  - pose proof (onMessage_adds_without_id env m db rd r) as H1.
    destruct (onMessage env m db) as [e1 db1].
    specialize (IH db1). destruct (run rest db1) as [e2 db2]. simpl in *.
    intros [Hin|Hin]%elem_of_app; auto.
Qed.

(** Captures tagged with one session keep a single-session store so. *)
Lemma run_tagged (s : string) (puts : list (Env * InterceptedRequest))
    (db : Database) :
  (∀ k r, records db !! k = Some r → pageLoadId r = s) →
  ∀ k r,
    records (run ((λ p, (p.1, INTERCEPTED_REQUEST p.2 s)) <$> puts) db).2 !! k
      = Some r →
    pageLoadId r = s.
Proof.
  revert db. induction puts as [|[env data] puts IH]; intros db Hdb; [done|].
  simpl.
  destruct (isJson (ir_contentType data)).
  - destruct (saveRequest (engine env) (toRequestData data s) db)
      as [c db1] eqn:Hsave.
    assert (∀ k r, records db1 !! k = Some r → pageLoadId r = s) as Hdb1.
    { destruct (engine env); simpl in Hsave; [|by injection Hsave as <- <-].
      unfold store_add in Hsave. simpl in Hsave.
      destruct (MAX_GENERATED_KEY <? currentNumber db);
        [by injection Hsave as <- <-|].
      destruct (records db !! currentNumber db);
        injection Hsave as <- <-; [done|].
      intros k r. simpl. rewrite lookup_insert.
      case_decide; [by intros [= <-] | apply Hdb]. }
    specialize (IH db1 Hdb1).
    destruct (run _ db1) as [e2 db2]. destruct c; exact IH.
  - specialize (IH db Hdb). by destruct (run _ db).
Qed.

Lemma run_wf (deliveries : list (Env * Message)) (db : Database) :
  wf db → wf (run deliveries db).2.
Proof.
  revert db. induction deliveries as [|[env m] rest IH]; intros db Hwf; [done|].
  simpl. pose proof (onMessage_wf env m db Hwf) as H1.
  destruct (onMessage env m db) as [e1 db1]. specialize (IH db1 H1).
  by destruct (run rest db1).
Qed.

(** ** Filtering *)

(** C1.  An [INTERCEPTED_REQUEST] whose [contentType] is absent or does not
    hold the substring [application/json] (compared byte for byte) is
    dropped: nothing is done, nothing is logged, the store is unchanged,
    whatever the engine answers.  When the engine serves the write (and the
    key generator is not exhausted), a record is persisted under a fresh
    key, holding the message's [url], [method], [responseBody],
    [contentType] and [timestamp], the sender's [pageLoadId] and that key
    as its [id], if and only if the [contentType] is present and holds that
    substring; it is then the one change to the store. *)
Theorem filter_correctness (env : Env) (data : InterceptedRequest)
    (session : string) (db : Database) :
  let json :=
    ∃ ct p q, ir_contentType data = Some ct
              ∧ ct = p +:+ "application/json" +:+ q in
  let out := onMessage env (INTERCEPTED_REQUEST data session) db in
  let stores (k : Z) (r : RequestData) :=
    records db !! k = None
    ∧ records out.2 !! k = Some r
    ∧ url r = ir_url data
    ∧ method r = ir_method data
    ∧ responseBody r = ir_responseBody data
    ∧ contentType r = ir_contentType data
    ∧ timestamp r = ir_timestamp data
    ∧ pageLoadId r = session
    ∧ id r = Some k in
  let persisted := ∃ k r, stores k r in
  (¬ json → out = ([], db))
  ∧ (wf db → engine env = Healthy → currentNumber db ≤ MAX_GENERATED_KEY →
     (persisted ↔ json)
     ∧ (json → ∃ k r, stores k r ∧ records out.2 = <[k := r]> (records db))).
Proof.
  simpl. pose proof (isJson_spec (ir_contentType data)) as Hspec.
  destruct (isJson (ir_contentType data)) eqn:Hj.
  - split; [intros Hn; destruct Hn; by apply Hspec|].
    intros Hwf -> Hmax. simpl.
    destruct (store_add_generated (toRequestData data session) db Hwf eq_refl Hmax)
      as [-> Hfresh]. simpl.
    set (k := currentNumber db).
    set (r := with_id k (toRequestData data session)).
    assert (records db !! k = None
            ∧ <[k := r]> (records db) !! k = Some r
            ∧ url r = ir_url data ∧ method r = ir_method data
            ∧ responseBody r = ir_responseBody data
            ∧ contentType r = ir_contentType data
            ∧ timestamp r = ir_timestamp data
            ∧ pageLoadId r = session ∧ id r = Some k) as Hs.
    { split; [done|]. split; [apply lookup_insert_eq|]. by repeat split. }
    split; [split|].
    + intros _. by apply Hspec.
    + intros _. by exists k, r.
    + intros _. by exists k, r.
  - split; [done|]. intros _ _ _. split; [split|].
    + intros (k & r & Hnone & Hsome & _). simpl in Hsome. congruence.
    + intros Hjson. apply Hspec in Hjson. discriminate Hjson.
    + intros Hjson. apply Hspec in Hjson. discriminate Hjson.
Qed.

Lemma filter_correctness_witness :
  ∃ k r,
    records emptyDatabase !! k = None
    ∧ records (onMessage Samples.healthy
                 (INTERCEPTED_REQUEST Samples.jsonCapture "1700000000000")
                 emptyDatabase).2 !! k = Some r
    ∧ url r = "https://example.test/api/items"
    ∧ method r = "GET"
    ∧ responseBody r = "[1]"
    ∧ contentType r = Some "application/json; charset=utf-8"
    ∧ timestamp r = 1700000000000
    ∧ pageLoadId r = "1700000000000"
    ∧ id r = Some k.
Proof.
  destruct (filter_correctness Samples.healthy Samples.jsonCapture
              "1700000000000" emptyDatabase) as [_ H].
  destruct H as [Hiff _].
  - apply wf_empty.
  - reflexivity.
  - vm_compute. discriminate.
  - apply Hiff.
    exists "application/json; charset=utf-8", "", "; charset=utf-8". by split.
Defined.

Example html_capture_dropped :
  onMessage Samples.broken
    (INTERCEPTED_REQUEST Samples.htmlCapture "1700000000000") emptyDatabase
  = ([], emptyDatabase).
Proof. reflexivity. Qed.

(** An armed page fetches a JSON resource: one record appears in the
    session's logs, with the body the page received. *)
Example json_fetch_is_logged :
  let call :=
    Interceptor.window_fetch (Samples.nativeFetch Samples.jsonResponse)
      Samples.getItems [] in
  let db :=
    (Pipeline.pageLoad Samples.healthy (Samples.nativeFetch Samples.jsonResponse)
       "1700000000000"
       (Interceptor.PageFetch Samples.getItems
          :: match Interceptor.scheduled call with
             | Some p => [Interceptor.TextSettled p 1700000000000]
             | None => []
             end)
       emptyDatabase).2 in
  responseBody <$> index_getAll "1700000000000" db = ["[1]"].
Proof. vm_compute. reflexivity. Qed.

(** ** Sessions *)

(** C2.  Whatever was put under session [s1], once the engine has served
    the [clear] that [NEW_PAGE_LOAD s2] triggers the store holds no record
    at all: the query for [s1] answers the empty list, and so does the one
    for [s2].  A query for [s2] only ever answers records tagged [s2]; and
    after any further captures tagged [s2] every stored record is tagged
    [s2], so that the query for a different [s1] still answers the empty
    list. *)
Theorem session_isolation (env : Env) (s1 s2 : string)
    (puts later : list (Env * InterceptedRequest)) (db : Database) :
  engine env = Healthy →
  let tag s := λ p : Env * InterceptedRequest, (p.1, INTERCEPTED_REQUEST p.2 s) in
  let before := (run (tag s1 <$> puts) db).2 in
  let purged := (onMessage env (NEW_PAGE_LOAD s2) before).2 in
  let after := (run (tag s2 <$> later) purged).2 in
  records purged = ∅
  ∧ getRequestsByPageLoadId Healthy s1 purged = Normal []
  ∧ getRequestsByPageLoadId Healthy s2 purged = Normal []
  ∧ (∀ r, r ∈ index_getAll s2 after → pageLoadId r = s2)
  ∧ (∀ k r, records after !! k = Some r → pageLoadId r = s2)
  ∧ (s1 ≠ s2 → getRequestsByPageLoadId Healthy s1 after = Normal []).
Proof.
  intros Hh. simpl. rewrite Hh. simpl.
  set (before := (run _ db).2).
  set (purged := {| records := ∅; currentNumber := currentNumber before |}).
  assert (∀ k r, records purged !! k = Some r → pageLoadId r = s2) as Hp.
  { intros k r. simpl. by rewrite lookup_empty. }
  pose proof (run_tagged s2 later purged Hp) as Hafter.
  split; [done|].
  split; [by rewrite index_getAll_empty|].
  split; [by rewrite index_getAll_empty|].
  split; [by intros r [k [_ Hs]]%index_getAll_elem|].
  split; [exact Hafter|].
  intros Hne. f_equal. apply elem_of_nil_inv. intros r Hr.
  apply index_getAll_elem in Hr as [k [Hl Hs]].
  apply Hafter in Hl. congruence.
Qed.

Lemma session_isolation_witness :
  let tag s := λ p : Env * InterceptedRequest, (p.1, INTERCEPTED_REQUEST p.2 s) in
  let before :=
    (run (tag "1700000000000"
            <$> [(Samples.healthy, Samples.jsonCapture);
                 (Samples.healthy, Samples.forgedCapture)]) emptyDatabase).2 in
  let purged := (onMessage Samples.healthy (NEW_PAGE_LOAD "1700000009999") before).2 in
  let after :=
    (run (tag "1700000009999" <$> [(Samples.healthy, Samples.jsonCapture)])
         purged).2 in
  getRequestsByPageLoadId Healthy "1700000000000" after = Normal [].
Proof.
  apply (session_isolation Samples.healthy "1700000000000" "1700000009999"
           [(Samples.healthy, Samples.jsonCapture);
            (Samples.healthy, Samples.forgedCapture)]
           [(Samples.healthy, Samples.jsonCapture)] emptyDatabase).
  - reflexivity.
  - discriminate.
Defined.

(** ** Keys *)

Lemma interceptor_posts_without_id (originalFetch : Interceptor.OriginalFetch)
    (st : Interceptor.State) (i : Interceptor.Input) (d : InterceptedRequest) :
  Interceptor.EvPostMessage d ∈ (Interceptor.step originalFetch st i).2 →
  ir_id d = None.
Proof.
  destruct i as [w data|args|p now|x f|x m u|x|x resp now]; simpl.
  - destruct w, data; simpl; by intros ?%elem_of_nil.
  - unfold Interceptor.window_fetch.
    destruct (originalFetch args (Interceptor.heap st)) as [[r|e] h1]; simpl;
      [|intros H; elem_cases H].
    destruct (Interceptor.clone r h1) as [[c|e] h2]; simpl;
      [|intros H; elem_cases H].
    destruct (Interceptor.text c h2). simpl. intros H; elem_cases H.
  - unfold Interceptor.onTextSettled.
    destruct (Interceptor.p_settled p); [|intros H; elem_cases H].
    destruct (truthy (Interceptor.isActive st)); [|intros H; elem_cases H].
    destruct (Interceptor.p_url p); intros H; elem_cases H.
    by injection H as ->.
  - by intros ?%elem_of_nil.
  - intros H; elem_cases H.
  - intros H; elem_cases H.
  - generalize (Interceptor.onload (Interceptor.xhrOf st x)).
    intros h. induction h as [|f|h IH]; simpl.
    + by intros ?%elem_of_nil.
    + intros H; elem_cases H.
    + destruct (Interceptor.run_onload _ x _ resp now h) as [ev completed].
      simpl in IH. destruct completed; [|done].
      destruct (truthy (Interceptor.isActive st)); [|done].
      unfold Interceptor.xhr_capture.
      destruct (negb _); simpl.
      { intros [H|H]%elem_of_app; [auto | elem_cases H]. }
      destruct (Interceptor.opened (Interceptor.xhrOf st x)) as [[m [u|]]|];
        simpl; intros [H|H]%elem_of_app; auto; elem_cases H.
      by injection H as ->.
Qed.

(** C7.  Over any sequence of deliveries to the listener, from any store,
    the ids the store assigned to the puts that succeeded are strictly
    increasing in the order the puts completed, hence pairwise distinct,
    and none is below the key generator's number at the start.  The id
    never comes from the capturing side: the interceptor posts no [id], and
    every value the listener hands to [saveRequest] carries none (so a
    successful put gets the key generator's current number, whatever the
    message held). *)
Theorem id_monotonicity (deliveries : list (Env * Message)) (db : Database) :
  let ids := assignedIds (run deliveries db).1 in
  StronglySorted Z.lt ids
  ∧ NoDup ids
  ∧ Forall (λ k, currentNumber db ≤ k) ids
  ∧ (∀ rd r, StoreAdd rd r ∈ (run deliveries db).1 → id rd = None)
  ∧ (∀ env data session,
       assignedIds (onMessage env (INTERCEPTED_REQUEST data session) db).1 = []
       ∨ assignedIds (onMessage env (INTERCEPTED_REQUEST data session) db).1
         = [currentNumber db])
  ∧ (∀ originalFetch st i d,
       Interceptor.EvPostMessage d ∈ (Interceptor.step originalFetch st i).2 →
       ir_id d = None).
Proof.
  simpl. destruct (run_ids deliveries db) as (Hs & Hb & _).
  split; [exact Hs|]. split.
  { clear Hb. induction Hs as [|k ids Hs IH Hk]; constructor; [|done].
    intros Hin. rewrite Forall_forall in Hk. specialize (Hk _ Hin). lia. }
  split; [eapply Forall_impl; [exact Hb|]; simpl; lia|].
  split; [intros rd r; apply run_adds_without_id|].
  split.
  - intros env data session.
    destruct (onMessage_ids env (INTERCEPTED_REQUEST data session) db)
      as [[H _]|[H _]]; auto.
  - apply interceptor_posts_without_id.
Qed.

Lemma id_monotonicity_witness :
  id (toRequestData Samples.forgedCapture "s") = None.
Proof.
  destruct (id_monotonicity
              [(Samples.healthy, INTERCEPTED_REQUEST Samples.forgedCapture "s")]
              emptyDatabase) as (_ & _ & _ & H & _).
  apply (H _ (Normal 1)). vm_compute. apply list_elem_of_here.
Defined.

Example forged_id_ignored :
  assignedIds
    (run [(Samples.healthy, INTERCEPTED_REQUEST Samples.jsonCapture "s");
          (Samples.healthy, INTERCEPTED_REQUEST Samples.forgedCapture "s");
          (Samples.healthy, DELETE_LOG "2");
          (Samples.healthy, NEW_PAGE_LOAD "t");
          (Samples.broken, INTERCEPTED_REQUEST Samples.jsonCapture "t");
          (Samples.healthy, INTERCEPTED_REQUEST Samples.htmlCapture "t");
          (Samples.healthy, INTERCEPTED_REQUEST Samples.jsonCapture "t")]
       emptyDatabase).1
  = [1; 2; 3].
Proof. vm_compute. reflexivity. Qed.

(** ** Round trip *)

(** C8.  When [saveRequest] succeeds with key [k], the query for the
    record's session answers a record whose [url], [method],
    [responseBody], [contentType], [timestamp] and [pageLoadId] are the
    inserted ones and whose [id] is [k]. *)
Theorem round_trip (eng : Engine) (rd : RequestData) (db db' : Database)
    (k : Z) :
  saveRequest eng rd db = (Normal k, db') →
  ∃ logs r,
    getRequestsByPageLoadId Healthy (pageLoadId rd) db' = Normal logs
    ∧ r ∈ logs
    ∧ url r = url rd ∧ method r = method rd
    ∧ responseBody r = responseBody rd ∧ contentType r = contentType rd
    ∧ timestamp r = timestamp rd ∧ pageLoadId r = pageLoadId rd
    ∧ id r = Some k.
Proof.
  intros Hsave. exists (index_getAll (pageLoadId rd) db'), (with_id k rd).
  split; [done|]. split; [|by repeat split].
  apply index_getAll_elem. exists k. split; [|done].
  destruct eng; [|done]. simpl in Hsave. unfold store_add in Hsave.
  destruct (id rd) as [i|] eqn:Hid.
  - destruct (records db !! i); [done|]. injection Hsave as <- <-. simpl.
    rewrite lookup_insert_eq. f_equal. destruct rd; simpl in *. by subst.
  - simpl in Hsave. destruct (MAX_GENERATED_KEY <? currentNumber db); [done|].
    destruct (records db !! currentNumber db); [done|].
    injection Hsave as <- <-. simpl. apply lookup_insert_eq.
Qed.

Lemma round_trip_witness :
  ∃ logs r,
    getRequestsByPageLoadId Healthy "1700000000000"
      (saveRequest Healthy (toRequestData Samples.jsonCapture "1700000000000")
         emptyDatabase).2 = Normal logs
    ∧ r ∈ logs
    ∧ url r = "https://example.test/api/items" ∧ method r = "GET"
    ∧ responseBody r = "[1]"
    ∧ contentType r = Some "application/json; charset=utf-8"
    ∧ timestamp r = 1700000000000 ∧ pageLoadId r = "1700000000000"
    ∧ id r = Some 1.
Proof.
  apply (round_trip Healthy (toRequestData Samples.jsonCapture "1700000000000")
           emptyDatabase _ 1).
  reflexivity.
Defined.

Example get_logs_after_put :
  (onMessage Samples.healthy (GET_LOGS "s")
     (onMessage Samples.healthy (INTERCEPTED_REQUEST Samples.jsonCapture "s")
        emptyDatabase).2).1
  = [StoreQuery "s";
     SendResponse
       (ReplyLogs [with_id 1 (toRequestData Samples.jsonCapture "s")])].
Proof. vm_compute. reflexivity. Qed.

(** ** Deletion *)

Lemma deleteRequestById_twice (e2 : Engine) (key : Num) (db : Database) :
  (deleteRequestById e2 key (deleteRequestById Healthy key db).2).2
  = (deleteRequestById Healthy key db).2.
Proof.
  destruct e2, key as [|x]; simpl; try done.
  f_equal. apply delete_delete_eq.
Qed.

(** C9.  Deleting the same id twice in a row leaves the store as deleting
    it once did, and the second call, which finds no record under the id,
    resolves: the listener answers [{ success: true }] both times. *)
Theorem delete_idempotent (x : Z) (db : Database) :
  let once := deleteRequestById Healthy (Int x) db in
  let twice := deleteRequestById Healthy (Int x) once.2 in
  once.1 = Normal ()
  ∧ records once.2 !! x = None
  ∧ twice.1 = Normal ()
  ∧ twice.2 = once.2
  ∧ (∀ e2, (deleteRequestById e2 (Int x) once.2).2 = once.2)
  ∧ (∀ env logId,
       engine env = Healthy → parseInt logId = Int x →
       let first := onMessage env (DELETE_LOG logId) db in
       let second := onMessage env (DELETE_LOG logId) first.2 in
       first.2 = once.2
       ∧ second.2 = first.2
       ∧ second.1 = [StoreDelete (Int x) (Normal ()); SendResponse ReplyDeleted]).
Proof.
  simpl. split; [done|]. split; [apply lookup_delete_eq|]. split; [done|].
  split; [f_equal; apply delete_delete_eq|].
  split.
  - intros e2. apply (deleteRequestById_twice e2 (Int x) db).
  - intros env logId -> ->. simpl. split; [done|]. split; [|done].
    f_equal. apply delete_delete_eq.
Qed.

Lemma delete_idempotent_witness :
  let first := onMessage Samples.healthy (DELETE_LOG "7") emptyDatabase in
  let second := onMessage Samples.healthy (DELETE_LOG "7") first.2 in
  first.2 = (deleteRequestById Healthy (Int 7) emptyDatabase).2
  ∧ second.2 = first.2
  ∧ second.1 = [StoreDelete (Int 7) (Normal ()); SendResponse ReplyDeleted].
Proof.
  apply (delete_idempotent 7 emptyDatabase); reflexivity.
Defined.

Example parseInt_samples :
  parseInt "42" = Int 42 ∧ parseInt "  -17px" = Int (-17)
  ∧ parseInt "0x1F" = Int 31 ∧ parseInt "abc" = NaN ∧ parseInt "" = NaN.
Proof. repeat split. Qed.

Example delete_not_a_number :
  (onMessage Samples.healthy (DELETE_LOG "undefined") emptyDatabase).1
  = [StoreDelete NaN (Throw "DataError"); ConsoleError "DataError";
     SendResponse (ReplyNotDeleted "DataError")].
Proof. reflexivity. Qed.

(** ** The interceptor *)

(** What the patched [fetch] does when the original resolves to a response
    whose stream nobody has taken. *)
Lemma window_fetch_resolved (originalFetch : Interceptor.OriginalFetch)
    (args : Interceptor.FetchArgs) (h h1 : list Interceptor.Response) (r : nat) (o : Interceptor.Response) :
  originalFetch args h = (Normal r, h1) →
  h1 !! r = Some o → Interceptor.bodyUsed o = false →
  let call := Interceptor.window_fetch originalFetch args h in
  Interceptor.returned call = Normal r
  ∧ Interceptor.heap_after call = (h1 ++ [Interceptor.used o])%list
  ∧ ∃ p, Interceptor.scheduled call = Some p
         ∧ Interceptor.p_response p = r ∧ Interceptor.p_clone p = length h1
         ∧ Interceptor.p_settled p = Interceptor.bodyText o.
Proof.
  intros Horig Hr Hfresh. unfold Interceptor.window_fetch. rewrite Horig.
  unfold Interceptor.clone. rewrite Hr, Hfresh. unfold Interceptor.text.
  rewrite lookup_app_r by lia. rewrite Nat.sub_diag. simpl. rewrite Hfresh.
  simpl. split; [done|]. split.
  - rewrite insert_app_r_alt by lia. by rewrite Nat.sub_diag.
  - eexists. split; [done|]. by repeat split.
Qed.

Lemma window_fetch_rejected (originalFetch : Interceptor.OriginalFetch)
    (args : Interceptor.FetchArgs) (h h1 : list Interceptor.Response) (e : string) :
  originalFetch args h = (Throw e, h1) →
  let call := Interceptor.window_fetch originalFetch args h in
  Interceptor.returned call = Throw e ∧ Interceptor.heap_after call = h1
  ∧ Interceptor.scheduled call = None.
Proof. intros Horig. unfold Interceptor.window_fetch. by rewrite Horig. Qed.

Lemma window_fetch_events (originalFetch : Interceptor.OriginalFetch)
    (args : Interceptor.FetchArgs) (h : list Interceptor.Response) :
  Interceptor.events (Interceptor.window_fetch originalFetch args h) = [Interceptor.EvOriginalFetch args].
Proof.
  unfold Interceptor.window_fetch.
  destruct (originalFetch args h) as [[r|e] h1]; [|done].
  destruct (Interceptor.clone r h1) as [[c|e] h2]; [|done].
  by destruct (Interceptor.text c h2).
Qed.

(** The installed [onload], while the flag is falsy, runs the page's
    handler and nothing else. *)
Lemma run_onload_unarmed (v : Value) (n : nat) (x : Interceptor.Xhr)
    (resp : Interceptor.XhrResponse) (now : Z) (h : Interceptor.Onload) :
  truthy v = false →
  Interceptor.run_onload v n x resp now h = (Interceptor.pageHandlers n h, true).
Proof.
  intros Hv. induction h as [|f|h IH]; simpl; [done | done |].
  by rewrite IH, Hv.
Qed.

(** The page's handler runs first whatever the flag. *)
Lemma run_onload_page_first (v : Value) (n : nat) (x : Interceptor.Xhr)
    (resp : Interceptor.XhrResponse) (now : Z) (h : Interceptor.Onload) :
  Interceptor.pageHandlers n h `prefix_of` (Interceptor.run_onload v n x resp now h).1.
Proof.
  induction h as [|f|h IH]; simpl; [done | done |].
  destruct (Interceptor.run_onload v n x resp now h) as [ev completed]. simpl in IH.
  destruct completed; [|done].
  destruct (truthy v); [|done].
  destruct (Interceptor.xhr_capture x resp now) as [ev' completed']. simpl.
  by apply prefix_app_r.
Qed.

Lemma step_flag (originalFetch : Interceptor.OriginalFetch)
    (st : Interceptor.State) (i : Interceptor.Input) :
  Interceptor.isStateMessage i = false →
  Interceptor.isActive (Interceptor.step originalFetch st i).1 = Interceptor.isActive st.
Proof.
  destruct i as [w data|args|p now|x f|x m u|x|x resp now]; simpl; try done.
  by destruct w, data.
Qed.

Lemma step_unarmed (originalFetch : Interceptor.OriginalFetch)
    (st : Interceptor.State) (i : Interceptor.Input) :
  truthy (Interceptor.isActive st) = false →
  Forall (λ e, Interceptor.isPost e = false) (Interceptor.step originalFetch st i).2.
Proof.
  intros Hv.
  destruct i as [w data|args|p now|x f|x m u|x|x resp now]; simpl.
  - by destruct w, data.
  - rewrite window_fetch_events. by repeat constructor.
  - unfold Interceptor.onTextSettled. rewrite Hv.
    destruct (Interceptor.p_settled p); by repeat constructor.
  - done.
  - by repeat constructor.
  - by repeat constructor.
  - rewrite run_onload_unarmed by done. simpl.
    induction (Interceptor.onload (Interceptor.xhrOf st x)) as [|f|h IH]; simpl;
      by repeat constructor.
Qed.

Lemma run_unarmed (originalFetch : Interceptor.OriginalFetch)
    (inputs : list Interceptor.Input) (st : Interceptor.State) :
  truthy (Interceptor.isActive st) = false →
  Forall (λ i, Interceptor.isStateMessage i = false) inputs →
  Forall (λ e, Interceptor.isPost e = false) (Interceptor.run originalFetch st inputs).2
  ∧ Interceptor.isActive (Interceptor.run originalFetch st inputs).1 = Interceptor.isActive st.
Proof.
  revert st. induction inputs as [|i rest IH]; intros st Hv Hin; simpl.
  - by split.
  - apply Forall_cons in Hin as [Hi Hrest].
    pose proof (step_unarmed originalFetch st i Hv) as H1.
    pose proof (step_flag originalFetch st i Hi) as H2.
    destruct (Interceptor.step originalFetch st i) as [st1 e1]. simpl in *.
    assert (truthy (Interceptor.isActive st1) = false) as Hv1 by by rewrite H2.
    destruct (IH st1 Hv1 Hrest) as [H3 H4].
    destruct (Interceptor.run originalFetch st1 rest) as [st2 e2]. simpl in *.
    split; [by apply Forall_app | congruence].
Qed.

(** C3.  A call of the patched [fetch] invokes the original exactly once,
    with the caller's arguments.  A rejection of the original is the
    wrapper's rejection.  When the original resolves to a response whose
    stream nobody has taken, the wrapper resolves to that very object, and
    every object that existed when the original resolved, the returned one
    included, is left as it was: the text is read from a clone, a distinct
    object.  When the read settles nothing is thrown; if decoding the clone
    failed, the failure is logged and no capture is posted. *)
Theorem fetch_wrapper_transparent (originalFetch : Interceptor.OriginalFetch)
    (args : Interceptor.FetchArgs) (h : list Interceptor.Response) :
  let call := Interceptor.window_fetch originalFetch args h in
  Interceptor.events call = [Interceptor.EvOriginalFetch args]
  ∧ (∀ e h1, originalFetch args h = (Throw e, h1) →
       Interceptor.returned call = Throw e
       ∧ Interceptor.heap_after call = h1
       ∧ Interceptor.scheduled call = None)
  ∧ (∀ r h1 o,
       originalFetch args h = (Normal r, h1) →
       h1 !! r = Some o → Interceptor.bodyUsed o = false →
       Interceptor.returned call = Normal r
       ∧ Interceptor.heap_after call !! r = Some o
       ∧ (∀ r', (r' < length h1)%nat →
                Interceptor.heap_after call !! r' = h1 !! r')
       ∧ ∃ p, Interceptor.scheduled call = Some p
              ∧ Interceptor.p_response p = r
              ∧ Interceptor.p_clone p ≠ r
              ∧ Interceptor.heap_after call !! Interceptor.p_clone p
                = Some (Interceptor.used o)
              ∧ ∀ v now,
                  let settled :=
                    Interceptor.onTextSettled v now p (Interceptor.heap_after call) in
                  Forall (λ ev, ∀ m, ev ≠ Interceptor.EvUncaught m) settled
                  ∧ (∀ e, Interceptor.bodyText o = Throw e →
                          settled = [Interceptor.EvConsoleError e])).
Proof.
  simpl. split; [apply window_fetch_events|].
  split; [intros e h1; apply window_fetch_rejected|].
  intros r h1 o Horig Hr Hfresh.
  destruct (window_fetch_resolved originalFetch args h h1 r o Horig Hr Hfresh)
    as (Hret & Hheap & p & Hp & Hpr & Hpc & Hps).
  pose proof (lookup_lt_Some _ _ _ Hr) as Hlt.
  split; [done|]. rewrite Hheap.
  split; [by rewrite lookup_app_l|].
  split; [intros r' Hr'; by rewrite lookup_app_l|].
  exists p. split; [done|]. split; [done|]. split; [lia|].
  split.
  { rewrite Hpc, lookup_app_r by lia. by rewrite Nat.sub_diag. }
  intros v now. unfold Interceptor.onTextSettled. rewrite Hps. split.
  - destruct (Interceptor.bodyText o); [|by repeat constructor].
    destruct (truthy v); [|done].
    destruct (Interceptor.p_url p); by repeat constructor.
  - by intros e ->.
Qed.

Lemma fetch_wrapper_transparent_witness :
  let call :=
    Interceptor.window_fetch (Samples.nativeFetch Samples.undecodableResponse)
      Samples.getItems [] in
  Interceptor.returned call = Normal 0%nat
  ∧ Interceptor.heap_after call !! 0%nat = Some Samples.undecodableResponse
  ∧ (∀ r', (r' < 1)%nat → Interceptor.heap_after call !! r'
                           = [Samples.undecodableResponse] !! r')
  ∧ ∃ p, Interceptor.scheduled call = Some p
         ∧ Interceptor.p_response p = 0%nat
         ∧ Interceptor.p_clone p ≠ 0%nat
         ∧ Interceptor.heap_after call !! Interceptor.p_clone p
           = Some (Interceptor.used Samples.undecodableResponse)
         ∧ ∀ v now,
             let settled :=
               Interceptor.onTextSettled v now p (Interceptor.heap_after call) in
             Forall (λ ev, ∀ m, ev ≠ Interceptor.EvUncaught m) settled
             ∧ (∀ e, Interceptor.bodyText Samples.undecodableResponse = Throw e →
                     settled = [Interceptor.EvConsoleError e]).
Proof.
  destruct (fetch_wrapper_transparent
              (Samples.nativeFetch Samples.undecodableResponse)
              Samples.getItems []) as (_ & _ & H).
  apply (H 0%nat [Samples.undecodableResponse] Samples.undecodableResponse);
    reflexivity.
Defined.

Example fetch_json_armed :
  let call :=
    Interceptor.window_fetch (Samples.nativeFetch Samples.jsonResponse)
      Samples.getItems [] in
  Interceptor.returned call = Normal 0%nat
  ∧ (λ p, Interceptor.onTextSettled (VBool true) 1700000000000 p
            (Interceptor.heap_after call)) <$> Interceptor.scheduled call
    = Some [Interceptor.EvPostMessage Samples.jsonCapture].
Proof. split; reflexivity. Qed.

(** C4.  While the flag is falsy no step of the script posts a capture,
    and no run does as long as no state message arrives; the flag changes
    on the state message from the window and on nothing else.  Unarmed, the
    page sees what it would see unpatched: [fetch] calls the original and
    returns its response or its rejection, [open] and [send] call the
    originals, and [load] runs the page's own handler. *)
Theorem unarmed_emits_nothing (originalFetch : Interceptor.OriginalFetch)
    (st : Interceptor.State) :
  (truthy (Interceptor.isActive st) = false →
   (∀ i, Forall (λ e, Interceptor.isPost e = false)
                (Interceptor.step originalFetch st i).2)
   ∧ (∀ inputs,
        Forall (λ i, Interceptor.isStateMessage i = false) inputs →
        Forall (λ e, Interceptor.isPost e = false)
               (Interceptor.run originalFetch st inputs).2)
   ∧ (∀ x resp now,
        (Interceptor.step originalFetch st (Interceptor.Load x resp now)).2
        = Interceptor.pageHandlers x
            (Interceptor.onload (Interceptor.xhrOf st x))))
  ∧ (∀ i, Interceptor.isStateMessage i = false →
          Interceptor.isActive (Interceptor.step originalFetch st i).1
          = Interceptor.isActive st)
  ∧ (∀ v, Interceptor.isActive
            (Interceptor.step originalFetch st
               (Interceptor.WindowMessage true (GEMINI_INTERCEPTOR_STATE v))).1
          = v)
  ∧ (∀ args,
       (Interceptor.step originalFetch st (Interceptor.PageFetch args)).2
       = [Interceptor.EvOriginalFetch args])
  ∧ (∀ args r h1 o,
       originalFetch args (Interceptor.heap st) = (Normal r, h1) →
       h1 !! r = Some o → Interceptor.bodyUsed o = false →
       let call := Interceptor.window_fetch originalFetch args (Interceptor.heap st) in
       Interceptor.returned call = Normal r
       ∧ Interceptor.heap_after call !! r = Some o)
  ∧ (∀ args e h1,
       originalFetch args (Interceptor.heap st) = (Throw e, h1) →
       Interceptor.returned
         (Interceptor.window_fetch originalFetch args (Interceptor.heap st))
       = Throw e)
  ∧ (∀ x m u,
       (Interceptor.step originalFetch st (Interceptor.PageOpen x m u)).2
       = [Interceptor.EvOriginalOpen x m u])
  ∧ (∀ x, (Interceptor.step originalFetch st (Interceptor.PageSend x)).2
          = [Interceptor.EvOriginalSend x]).
Proof.
  split.
  { intros Hv. split; [intros i; by apply step_unarmed|]. split.
    - intros inputs Hin. by apply run_unarmed.
    - intros x resp now. simpl. by rewrite run_onload_unarmed. }
  split; [intros i; apply step_flag|].
  split; [done|].
  split; [intros args; apply window_fetch_events|].
  split.
  { intros args r h1 o Horig Hr Hfresh.
    destruct (window_fetch_resolved originalFetch args _ h1 r o Horig Hr Hfresh)
      as (Hret & Hheap & _).
    simpl. split; [done|]. rewrite Hheap.
    rewrite lookup_app_l; [done|]. by eapply lookup_lt_Some. }
  split.
  { intros args e h1 Horig.
    by destruct (window_fetch_rejected originalFetch args _ h1 e Horig). }
  by split.
Qed.

Lemma unarmed_emits_nothing_witness :
  Forall (λ e, Interceptor.isPost e = false)
    (Interceptor.run (Samples.nativeFetch Samples.jsonResponse) Samples.unarmed
       [Interceptor.PageFetch Samples.getItems;
        Interceptor.PageSetOnload 0 7;
        Interceptor.PageOpen 0 "GET" (Some "https://example.test/api/items");
        Interceptor.PageSend 0;
        Interceptor.Load 0 Samples.textXhrResponse 1700000000000]).2.
Proof.
  destruct (unarmed_emits_nothing (Samples.nativeFetch Samples.jsonResponse)
              Samples.unarmed) as (H & _).
  apply H.
  - reflexivity.
  - repeat constructor.
Defined.

Example xhr_unarmed_then_armed :
  (Interceptor.run (Samples.nativeFetch Samples.jsonResponse) Samples.unarmed
     [Interceptor.PageSetOnload 0 7;
      Interceptor.PageOpen 0 "GET" (Some "https://example.test/api/items");
      Interceptor.PageSend 0;
      Interceptor.Load 0 Samples.textXhrResponse 1700000000000;
      Interceptor.WindowMessage true (GEMINI_INTERCEPTOR_STATE (VBool true));
      Interceptor.Load 0 Samples.textXhrResponse 1700000000000]).2
  = [Interceptor.EvOriginalOpen 0 "GET" (Some "https://example.test/api/items");
     Interceptor.EvOriginalSend 0;
     Interceptor.EvPageOnload 0 7;
     Interceptor.EvPageOnload 0 7;
     Interceptor.EvPostMessage
       {| ir_url := "https://example.test/api/items"; ir_method := "GET";
          ir_responseBody := "[1]"; ir_contentType := Some "application/json";
          ir_timestamp := 1700000000000; ir_id := None |}].
Proof. vm_compute. reflexivity. Qed.

(** ** Asking *)

Lemma falsy_str (v : option string) :
  v = None ∨ v = Some "" → truthy_str v = false.
Proof. by intros [-> | ->]. Qed.

Lemma truthy_str_nonempty (k : string) : k ≠ "" → truthy_str (Some k) = true.
Proof. intros Hk. simpl. by apply negb_true_iff, String.eqb_neq. Qed.

Lemma askGemini_missing (modelId : string) (env : Env) (key : option string)
    (s q : string) (db : Database) :
  key = None ∨ key = Some "" →
  askGemini modelId env key s q db = [SendResponse (ReplyError MISSING_KEY)].
Proof. intros Hk. unfold askGemini. by rewrite (falsy_str _ Hk). Qed.

Lemma askGemini_invalid (modelId : string) (env : Env) (k : string)
    (s q : string) (db : Database) :
  k ≠ "" → startsWith "AI" k = false ∨ (String.length k < 10)%nat →
  askGemini modelId env (Some k) s q db
  = [SendResponse (ReplyError INVALID_KEY)].
Proof.
  intros Hk Hbad. unfold askGemini. rewrite truthy_str_nonempty by done.
  change (default "" (Some k)) with k. cbn [negb].
  assert (negb (startsWith "AI" k) || (String.length k <? 10)%nat = true) as ->.
  { destruct Hbad as [-> | Hlen]; [done|].
    apply Nat.ltb_lt in Hlen. rewrite Hlen. apply orb_true_r. }
  done.
Qed.

(** Whatever [askGemini] retrieves or fetches, it does so with a key that
    is present and passed the format check. *)
Lemma askGemini_checked (modelId : string) (env : Env) (key : option string)
    (s q : string) (db : Database) (e : Effect) :
  e ∈ askGemini modelId env key s q db →
  isFetch e = true ∨ isStoreQuery e = true →
  ∃ k, key = Some k ∧ k ≠ "" ∧ startsWith "AI" k = true
       ∧ (10 ≤ String.length k)%nat.
Proof.
  unfold askGemini. destruct (truthy_str key) eqn:Hk; cbn [negb].
  2:{ intros H; elem_cases H. subst e. by intros [|]. }
  apply truthy_str_Some in Hk as (k & -> & Hne).
  change (default "" (Some k)) with k.
  destruct (startsWith "AI" k) eqn:Hp; cbn [negb orb].
  2:{ intros H; elem_cases H. subst e. by intros [|]. }
  destruct (Nat.ltb_spec (String.length k) 10) as [Hlt|Hge].
  { intros H; elem_cases H. subst e. by intros [|]. }
  intros _ _. by exists k.
Qed.

Lemma askOpenRouter_checked (env : Env) (key : option string) (s q : string)
    (db : Database) (e : Effect) :
  e ∈ askOpenRouter env key s q db →
  isFetch e = true ∨ isStoreQuery e = true →
  ∃ k, key = Some k ∧ k ≠ "".
Proof.
  unfold askOpenRouter. destruct (truthy_str key) eqn:Hk; simpl.
  2:{ intros H; elem_cases H. subst e. by intros [|]. }
  apply truthy_str_Some in Hk as (k & -> & Hne). intros _ _. by exists k.
Qed.

(** C5.  In the [ASK_GEMINI] handler the checks come first.  With Gemini as
    the provider (chosen, or by default), an absent or empty key is answered
    with the key-not-found error and nothing else is done; a key that is
    present but does not start with [AI] or is shorter than ten characters
    is answered with the invalid-format error and nothing else is done.
    With OpenRouter as the provider an absent or empty key is answered with
    its key-not-found error and nothing else is done (the handler has no
    format check for that provider).  The single-provider listener does the
    same two checks.  Conversely, any log retrieval or provider call the
    handler makes happens with the key of the chosen provider present and,
    for Gemini, well-formed. *)
Theorem ask_preconditions (env : Env) (session question : string)
    (db : Database) :
  let result := storage env in
  let absent (key : option string) := key = None ∨ key = Some "" in
  let malformed (k : string) :=
    startsWith "AI" k = false ∨ (String.length k < 10)%nat in
  let effects := onAsk env session question db in
  let single := (onMessage_single env (ASK_GEMINI session question) db).1 in
  (absent (apiProvider result) ∨ apiProvider result = Some "gemini" →
   (absent (geminiApiKey result) →
    effects = [SendResponse (ReplyError MISSING_KEY)])
   ∧ (∀ k, geminiApiKey result = Some k → k ≠ "" → malformed k →
           effects = [SendResponse (ReplyError INVALID_KEY)]))
  ∧ (apiProvider result = Some "openrouter" →
     absent (openrouterApiKey result) →
     effects = [SendResponse (ReplyError MISSING_OPENROUTER_KEY)])
  ∧ (absent (geminiApiKey result) →
     single = [SendResponse (ReplyError MISSING_KEY)])
  ∧ (∀ k, geminiApiKey result = Some k → k ≠ "" → malformed k →
          single = [SendResponse (ReplyError INVALID_KEY)])
  ∧ (∀ e, e ∈ effects → isFetch e = true ∨ isStoreQuery e = true →
          (∃ k, geminiApiKey result = Some k ∧ k ≠ ""
                ∧ startsWith "AI" k = true ∧ (10 ≤ String.length k)%nat)
          ∨ (apiProvider result = Some "openrouter"
             ∧ ∃ k, openrouterApiKey result = Some k ∧ k ≠ ""))
  ∧ (∀ e, e ∈ single → isFetch e = true ∨ isStoreQuery e = true →
          ∃ k, geminiApiKey result = Some k ∧ k ≠ ""
               ∧ startsWith "AI" k = true ∧ (10 ≤ String.length k)%nat).
Proof.
  simpl. split.
  { intros Hprov.
    assert (onAsk env session question db
            = askGemini GEMINI_MODEL env (geminiApiKey (storage env)) session
                question db)
      as ->.
    { unfold onAsk. by destruct Hprov as [[-> | ->] | ->]. }
    split; [apply askGemini_missing|].
    intros k -> Hk Hbad. by apply askGemini_invalid. }
  split.
  { intros Hprov Hkey. unfold onAsk, askOpenRouter. rewrite Hprov. simpl.
    by rewrite (falsy_str _ Hkey). }
  split; [apply askGemini_missing|].
  split; [intros k -> Hk Hbad; by apply askGemini_invalid|].
  split; [|intros e; apply askGemini_checked].
  intros e. unfold onAsk.
  destruct (String.eqb _ "gemini") eqn:Hg.
  { intros Hin Hkind. left. by eapply askGemini_checked. }
  destruct (String.eqb _ "openrouter") eqn:Ho; [|by intros ?%elem_of_nil].
  intros Hin Hkind. right. split; [|by eapply askOpenRouter_checked].
  apply String.eqb_eq in Ho.
  destruct (apiProvider (storage env)) as [p|]; simpl in *; [|done].
  destruct (String.eqb p ""); simpl in Ho; [done | by subst].
Qed.

Lemma ask_preconditions_witness :
  onAsk Samples.shortGeminiKey "1700000000000" "what is field a?" emptyDatabase
  = [SendResponse (ReplyError INVALID_KEY)].
Proof.
  destruct (ask_preconditions Samples.shortGeminiKey "1700000000000"
              "what is field a?" emptyDatabase) as (H & _).
  destruct H as [_ H]; [by right|].
  apply (H "AIza"); [reflexivity | discriminate | right; simpl; lia].
Defined.

Example ask_without_key :
  (onMessage Samples.healthy (ASK_GEMINI "1700000000000" "what is field a?")
     emptyDatabase).1
  = [SendResponse (ReplyError MISSING_KEY)].
Proof. reflexivity. Qed.

Example ask_openrouter_without_key :
  onAsk Samples.openRouterNoKey "1700000000000" "what is field a?" emptyDatabase
  = [SendResponse (ReplyError MISSING_OPENROUTER_KEY)].
Proof. reflexivity. Qed.

Example ask_with_key :
  onAsk Samples.goodGeminiKey "1700000000000" "what is field a?" emptyDatabase
  = [StoreQuery "1700000000000";
     Fetch (geminiRequest GEMINI_MODEL "AIzaSyExampleExample" []
              "what is field a?");
     SendResponse (ReplyAnswer (VString "a is 1"))].
Proof. vm_compute. reflexivity. Qed.

(** C10 as stated fails: a stored provider that is the empty string is
    neither [gemini] nor [openrouter] nor absent, yet the handler treats it
    as Gemini and answers. *)
Lemma ask_empty_provider_answers :
  apiProvider (storage Samples.emptyProvider) ≠ None
  ∧ apiProvider (storage Samples.emptyProvider) ≠ Some "gemini"
  ∧ apiProvider (storage Samples.emptyProvider) ≠ Some "openrouter"
  ∧ (onMessage Samples.emptyProvider
       (ASK_GEMINI "1700000000000" "what is field a?") emptyDatabase).1
    = [SendResponse (ReplyError MISSING_KEY)].
Proof. by repeat split. Qed.

(** C10, amended.  If the stored provider is a non-empty string other than
    [gemini] and [openrouter], the handler does nothing at all: no reply,
    no log retrieval, no provider call.  An absent or empty provider is
    handled as [gemini]. *)
Theorem ask_unknown_provider (env : Env) (session question : string)
    (db : Database) :
  (∀ p, apiProvider (storage env) = Some p →
        p ≠ "" → p ≠ "gemini" → p ≠ "openrouter" →
        onMessage env (ASK_GEMINI session question) db = ([], db))
  ∧ (apiProvider (storage env) = None ∨ apiProvider (storage env) = Some "" →
     onAsk env session question db
     = askGemini GEMINI_MODEL env (geminiApiKey (storage env)) session
         question db).
Proof.
  split.
  - intros p Hp Hne Hg Ho. simpl. unfold onAsk. rewrite Hp.
    rewrite truthy_str_nonempty by done. simpl.
    apply String.eqb_neq in Hg, Ho. by rewrite Hg, Ho.
  - unfold onAsk. by intros [-> | ->].
Qed.

Lemma ask_unknown_provider_witness :
  onMessage Samples.unknownProvider
    (ASK_GEMINI "1700000000000" "what is field a?") emptyDatabase
  = ([], emptyDatabase).
Proof.
  destruct (ask_unknown_provider Samples.unknownProvider "1700000000000"
              "what is field a?" emptyDatabase) as (H & _).
  apply (H "openai"); [reflexivity | discriminate ..].
Defined.

(** ** Provider errors *)

(** A non-success response with an [error] object: the provider's message
    when it is truthy, else the status text. *)
Lemma geminiExchange_error (response : HttpResponse) (errorData err m : Value) :
  ok response = false → json response = Normal errorData →
  get errorData (Name "error") = Normal err →
  get err (Name "message") = Normal m →
  geminiExchange response
  = Throw ("Gemini API error: "
             +:+ toString (orElse m (VString (statusText response)))).
Proof.
  intros Hok Hjson Herr Hm. unfold geminiExchange. rewrite Hok, Hjson. simpl.
  rewrite Herr. simpl. by rewrite Hm.
Qed.

Lemma openRouterExchange_error (response : HttpResponse)
    (errorData err m : Value) :
  ok response = false → json response = Normal errorData →
  get errorData (Name "error") = Normal err →
  get err (Name "message") = Normal m →
  openRouterExchange response
  = Throw ("OpenRouter API error: "
             +:+ toString (orElse m (VString (statusText response)))).
Proof.
  intros Hok Hjson Herr Hm. unfold openRouterExchange. rewrite Hok, Hjson.
  simpl. rewrite Herr. simpl. by rewrite Hm.
Qed.

(** A non-success response whose body does not parse: the parser's error
    is what is thrown, and the status text plays no part. *)
Lemma exchange_unparseable (response : HttpResponse) (e : string) :
  ok response = false → json response = Throw e →
  geminiExchange response = Throw e ∧ openRouterExchange response = Throw e.
Proof.
  intros Hok Hjson. unfold geminiExchange, openRouterExchange.
  by rewrite Hok, Hjson.
Qed.

Lemma get_defined (v : Value) (k : Key) :
  v ≠ VNull → v ≠ VUndefined → get v k = Normal (getOwn v k).
Proof. by destruct v. Qed.

(** A success whose body is an object, an array, a string, a number or a
    boolean without a truthy answer at the expected path: the fallback. *)
Lemma geminiExchange_fallback (response : HttpResponse) (data : Value) :
  ok response = true → json response = Normal data →
  data ≠ VNull → data ≠ VUndefined →
  truthy (getOpt (getOpt (getOpt (getOpt (getOpt (getOwn data (Name "candidates"))
            (Index 0)) (Name "content")) (Name "parts")) (Index 0))
            (Name "text")) = false →
  geminiExchange response = Normal (VString "No answer found.").
Proof.
  intros Hok Hjson Hn Hu Hfalsy. unfold geminiExchange. rewrite Hok, Hjson.
  cbn [negb mbind completion_bind]. rewrite get_defined by done.
  unfold mbind, completion_bind, orElse. cbv beta iota zeta.
  by rewrite Hfalsy.
Qed.

Lemma openRouterExchange_fallback (response : HttpResponse) (data : Value) :
  ok response = true → json response = Normal data →
  data ≠ VNull → data ≠ VUndefined →
  truthy (getOpt (getOpt (getOpt (getOwn data (Name "choices")) (Index 0))
            (Name "message")) (Name "content")) = false →
  openRouterExchange response = Normal (VString "No answer found.").
Proof.
  intros Hok Hjson Hn Hu Hfalsy. unfold openRouterExchange. rewrite Hok, Hjson.
  cbn [negb mbind completion_bind]. rewrite get_defined by done.
  unfold mbind, completion_bind, orElse. cbv beta iota zeta.
  by rewrite Hfalsy.
Qed.

Example provider_message_carried :
  (callGeminiAPI GEMINI_MODEL (Samples.replying Samples.quotaError) "AIzaSyExampleExample"
     [] "what is a?").2
  = Throw "Failed to communicate with Gemini API: Gemini API error: Quota exceeded".
Proof. reflexivity. Qed.

Example status_text_when_no_message :
  (callOpenRouterAPI (Samples.replying Samples.bareError) "sk-or-example"
     [] "what is a?").2
  = Throw "Failed to communicate with OpenRouter API: OpenRouter API error: Forbidden".
Proof. reflexivity. Qed.

Example answer_passed_through :
  (callGeminiAPI GEMINI_MODEL (Samples.replying Samples.geminiAnswer) "AIzaSyExampleExample"
     [] "what is a?").2
  = Normal (VString "a is 1").
Proof. reflexivity. Qed.

Example fallback_when_no_answer :
  (callGeminiAPI GEMINI_MODEL (Samples.replying Samples.emptyAnswer) "AIzaSyExampleExample"
     [] "what is a?").2
  = Normal (VString "No answer found.")
  ∧ (callOpenRouterAPI (Samples.replying Samples.emptyAnswer) "sk-or-example"
       [] "what is a?").2
    = Normal (VString "No answer found.").
Proof. split; reflexivity. Qed.

Example null_body_is_an_error :
  (callGeminiAPI GEMINI_MODEL (Samples.replying Samples.nullBody) "AIzaSyExampleExample"
     [] "what is a?").2
  = Throw "Failed to communicate with Gemini API: Cannot read properties of null (reading 'candidates')".
Proof. reflexivity. Qed.

(** C6, at a gateway's HTML error page (status 502, status text
    [Bad Gateway], a body that is not JSON): both calls fail with the JSON
    parser's message behind their prefix; the status text is not in the
    error. *)
Theorem provider_error_unparseable_body :
  let gemini :=
    (callGeminiAPI GEMINI_MODEL (Samples.replying Samples.badGateway)
       "AIzaSyExampleExample" [] "what is a?").2 in
  let openRouter :=
    (callOpenRouterAPI (Samples.replying Samples.badGateway)
       "sk-or-example" [] "what is a?").2 in
  gemini
  = Throw "Failed to communicate with Gemini API: Unexpected token < in JSON at position 0"
  ∧ openRouter
    = Throw "Failed to communicate with OpenRouter API: Unexpected token < in JSON at position 0"
  ∧ includes (statusText Samples.badGateway)
      "Failed to communicate with Gemini API: Unexpected token < in JSON at position 0"
    = false
  ∧ includes (statusText Samples.badGateway)
      "Failed to communicate with OpenRouter API: Unexpected token < in JSON at position 0"
    = false.
Proof. repeat split. Qed.

(** * Further properties *)

(** ** The listener and the store *)

Lemma answerOrError_replies (call : list ProviderRequest * Completion Value) :
  Invariants.replies (answerOrError call) = 1%nat
  ∧ ∃ r, last (answerOrError call) = Some (SendResponse r).
Proof.
  unfold Invariants.replies, answerOrError. destruct call as [reqs c]. simpl.
  rewrite List.filter_app, length_app.
  assert (List.filter isSend (Fetch <$> reqs) = []) as ->.
  { induction reqs as [|q reqs IH]; [done | exact IH]. }
  destruct c as [v|e]; (split; [done|]); rewrite last_app; simpl; eauto.
Qed.

(** X1.  Whenever a delivery logs an error or replies with one, the store
    is left exactly as it was; and with an engine that fails the call, no
    delivery changes the store. *)
Theorem failure_leaves_store (env : Env) (m : Message) (db : Database) :
  ((∃ e, e ∈ (onMessage env m db).1 ∧ isFailure e = true) →
   (onMessage env m db).2 = db)
  ∧ (∀ msg, engine env = Faulty msg → (onMessage env m db).2 = db).
Proof.
  split.
  - intros (e & Hin & Hfail).
    destruct m as [|logId|s|data s|s|s q|t]; simpl in *; try done.
    + destruct (engine env); simpl in *; [|done].
      elem_cases Hin; by subst e.
    + destruct (engine env), (parseInt logId); simpl in *; try done.
      elem_cases Hin; by subst e.
    + destruct (engine env); simpl in *; [|done].
      elem_cases Hin; by subst e.
    + destruct (isJson (ir_contentType data)); [|done].
      destruct (saveRequest (engine env) (toRequestData data s) db)
        as [[k|msg] db'] eqn:Hsave; simpl in *.
      * elem_cases Hin; by subst e.
      * destruct (engine env); simpl in Hsave; [|by injection Hsave as _ <-].
        by apply store_add_failed in Hsave.
  - intros msg Hf.
    destruct m as [|logId|s|data s|s|s q|t]; simpl; rewrite ?Hf; try done.
    by destruct (isJson (ir_contentType data)).
Qed.

Lemma failure_leaves_store_witness :
  (onMessage Samples.healthy (DELETE_LOG "undefined")
     (onMessage Samples.healthy (INTERCEPTED_REQUEST Samples.jsonCapture "s")
        emptyDatabase).2).2
  = (onMessage Samples.healthy (INTERCEPTED_REQUEST Samples.jsonCapture "s")
       emptyDatabase).2.
Proof.
  destruct (failure_leaves_store Samples.healthy (DELETE_LOG "undefined")
              (onMessage Samples.healthy
                 (INTERCEPTED_REQUEST Samples.jsonCapture "s")
                 emptyDatabase).2) as (H & _).
  apply H. exists (ConsoleError "DataError"). split; [|reflexivity].
  vm_compute. apply list_elem_of_further, list_elem_of_here.
Defined.

(** X2.  The listener replies at most once to a message, and a reply is
    the last thing it does.  It replies exactly once to [CLEAR_ALL_LOGS],
    [DELETE_LOG] and [GET_LOGS], whatever the engine answers, and never to
    [NEW_PAGE_LOAD] or [INTERCEPTED_REQUEST]. *)
Theorem reply_discipline (env : Env) (m : Message) (db : Database) :
  let effects := (onMessage env m db).1 in
  (Invariants.replies effects ≤ 1)%nat
  ∧ (∀ r, SendResponse r ∈ effects → ∃ r', last effects = Some (SendResponse r'))
  ∧ match m with
    | CLEAR_ALL_LOGS | DELETE_LOG _ | GET_LOGS _ =>
        Invariants.replies effects = 1%nat
    | NEW_PAGE_LOAD _ | INTERCEPTED_REQUEST _ _ | OTHER _ =>
        Invariants.replies effects = 0%nat
    | ASK_GEMINI _ _ => True
    end.
Proof.
  destruct m as [|logId|s|data s|s|s q|t]; simpl.
  - destruct (clearAllRequests (engine env) db) as [[[]|e] db'];
      (split; [done|]); (split; [|done]); intros r Hr; simpl; eauto.
  - destruct (deleteRequestById (engine env) (parseInt logId) db)
      as [[[]|e] db'];
      (split; [done|]); (split; [|done]); intros r Hr; simpl; eauto.
  - destruct (clearAllRequests (engine env) db) as [[[]|e] db'];
      (split; [unfold Invariants.replies; simpl; lia|]); (split; [|done]); intros r Hr; elem_cases Hr.
  - destruct (isJson (ir_contentType data)).
    + destruct (saveRequest (engine env) (toRequestData data s) db)
        as [[k|e] db'];
        (split; [unfold Invariants.replies; simpl; lia|]); (split; [|done]); intros r Hr; elem_cases Hr.
    + split; [unfold Invariants.replies; simpl; lia|]. split; [|done]. by intros r Hr%elem_of_nil.
  - destruct (getRequestsByPageLoadId (engine env) s db) as [logs|e];
      (split; [done|]); (split; [|done]); intros r Hr; simpl; eauto.
  - assert (∀ c, (Invariants.replies (StoreQuery s :: answerOrError c) ≤ 1)%nat
                 ∧ ∃ r, last (StoreQuery s :: answerOrError c)
                        = Some (SendResponse r)) as Hcall.
    { intros c. destruct (answerOrError_replies c) as [Hn [r Hl]].
      split; [unfold Invariants.replies in *; simpl; lia|].
      exists r. destruct (answerOrError c); [done | exact Hl]. }
    split; [|split; [|done]]; unfold onAsk, askGemini, askOpenRouter;
      repeat case_match;
      try (unfold Invariants.replies; simpl; lia);
      try (intros r Hr; simpl; eauto; fail);
      try (intros r Hr%elem_of_nil; done);
      try (apply Hcall); try (intros r _; apply Hcall).
  - split; [unfold Invariants.replies; simpl; lia|]. split; [|done]. by intros r Hr%elem_of_nil.
Qed.

Lemma reply_discipline_witness :
  ∃ r', last (onMessage Samples.goodGeminiKey
                (ASK_GEMINI "1700000000000" "what is field a?")
                emptyDatabase).1
        = Some (SendResponse r').
Proof.
  destruct (reply_discipline Samples.goodGeminiKey
              (ASK_GEMINI "1700000000000" "what is field a?") emptyDatabase)
    as (_ & H & _).
  apply (H (ReplyAnswer (VString "a is 1"))).
  vm_compute. do 2 apply list_elem_of_further. apply list_elem_of_here.
Defined.

(** X3.  A served delete of key [k] takes the record with [id = k] out of
    every session's logs and nothing else: every other record is still
    answered, unchanged, and the key generator keeps its number. *)
Theorem delete_frame (k : Z) (db : Database) (session : string)
    (r : RequestData) :
  wf db →
  let db' := (deleteRequestById Healthy (Int k) db).2 in
  (r ∈ index_getAll session db'
   ↔ r ∈ index_getAll session db ∧ id r ≠ Some k)
  ∧ currentNumber db' = currentNumber db.
Proof.
  intros Hwf. simpl. split; [|done]. rewrite !index_getAll_elem. simpl. split.
  - intros (k' & Hl & Hs). rewrite lookup_delete in Hl.
    case_decide as Hk; [done|]. split; [by exists k'|].
    apply Hwf in Hl as [-> _]. congruence.
  - intros [(k' & Hl & Hs) Hne]. exists k'. split; [|done].
    rewrite lookup_delete. case_decide as Hk; [|done].
    subst k'. apply Hwf in Hl as [Hid _]. congruence.
Qed.

Lemma delete_frame_witness :
  with_id 1 (toRequestData Samples.jsonCapture "s")
    ∈ index_getAll "s"
        (deleteRequestById Healthy (Int 2)
           (run [(Samples.healthy, INTERCEPTED_REQUEST Samples.jsonCapture "s");
                 (Samples.healthy, INTERCEPTED_REQUEST Samples.forgedCapture "s")]
              emptyDatabase).2).2.
Proof.
  apply (delete_frame 2
           (run [(Samples.healthy, INTERCEPTED_REQUEST Samples.jsonCapture "s");
                 (Samples.healthy, INTERCEPTED_REQUEST Samples.forgedCapture "s")]
              emptyDatabase).2 "s").
  - apply run_wf, wf_empty.
  - split; [|discriminate]. vm_compute. apply list_elem_of_here.
Defined.

(** X4.  A successful put adds exactly one record to its session's logs,
    under an id no stored record had, and changes no other session's
    logs. *)
Theorem put_frame (eng : Engine) (rd : RequestData) (db db' : Database)
    (k : Z) (session : string) (r : RequestData) :
  wf db → saveRequest eng rd db = (Normal k, db') →
  (r ∈ index_getAll session db'
   ↔ r ∈ index_getAll session db
     ∨ (r = with_id k rd ∧ pageLoadId rd = session))
  ∧ (∀ s' r', r' ∈ index_getAll s' db → id r' ≠ Some k).
Proof.
  intros Hwf Hsave.
  assert (records db !! k = None
          ∧ records db' = <[k := with_id k rd]> (records db)) as [Hfresh Hrec].
  { destruct eng; [|done]. simpl in Hsave. unfold store_add in Hsave.
    destruct (id rd) as [i|] eqn:Hid.
    - destruct (records db !! i) eqn:Hl; [done|]. injection Hsave as <- <-.
      split; [done|]. simpl. f_equal. destruct rd; simpl in *. by subst.
    - simpl in Hsave. destruct (MAX_GENERATED_KEY <? currentNumber db); [done|].
      destruct (records db !! currentNumber db) eqn:Hl; [done|].
      by injection Hsave as <- <-. }
  split.
  - rewrite !index_getAll_elem. rewrite Hrec. split.
    + intros (k' & Hl & Hs). rewrite lookup_insert in Hl.
      case_decide as Hk; [|left; by exists k'].
      injection Hl as <-. by right.
    + intros [(k' & Hl & Hs) | [-> Hs]].
      * exists k'. split; [|done]. rewrite lookup_insert_ne; [done|].
        intros ->. by rewrite Hfresh in Hl.
      * exists k. split; [apply lookup_insert_eq | done].
  - intros s' r' (k' & Hl & _)%index_getAll_elem Hid.
    destruct (Hwf _ _ Hl) as [Hid' _]. congruence.
Qed.

Lemma put_frame_witness :
  with_id 1 (toRequestData Samples.jsonCapture "s")
    ∈ index_getAll "s"
        (saveRequest Healthy (toRequestData Samples.jsonCapture "s")
           emptyDatabase).2.
Proof.
  apply (put_frame Healthy (toRequestData Samples.jsonCapture "s")
           emptyDatabase _ 1 "s").
  - apply wf_empty.
  - reflexivity.
  - right. by split.
Defined.

Lemma onMessage_stored_ok (env : Env) (m : Message) (db : Database) :
  Invariants.stored_ok db → Invariants.stored_ok (onMessage env m db).2.
Proof.
  intros [Hc Hok].
  destruct m as [|logId|s|data s|s|s q|t]; simpl; try done.
  - destruct (engine env); simpl; [|done]. split; [done|].
    intros k r. simpl. by rewrite lookup_empty.
  - destruct (engine env), (parseInt logId) as [|x]; simpl; try done.
    split; [done|]. intros k r. simpl. rewrite lookup_delete.
    case_decide; [done | apply Hok].
  - destruct (engine env); simpl; [|done]. split; [done|].
    intros k r. simpl. by rewrite lookup_empty.
  - destruct (isJson (ir_contentType data)) eqn:Hj; [|done].
    destruct (engine env); simpl; [|done]. unfold store_add. simpl.
    destruct (MAX_GENERATED_KEY <? currentNumber db); [done|].
    destruct (records db !! currentNumber db); [done|]. simpl.
    split; [simpl; lia|]. intros k r. simpl. rewrite lookup_insert.
    case_decide as Hk.
    + subst k. intros [= <-]. simpl. repeat split; [lia | lia | done].
    + intros Hl. apply Hok in Hl as (? & ? & ?). repeat split; [done|lia|lia|done].
Qed.

Lemma run_stored_ok (deliveries : list (Env * Message)) (db : Database) :
  Invariants.stored_ok db → Invariants.stored_ok (run deliveries db).2.
Proof.
  revert db. induction deliveries as [|[env m] rest IH]; intros db Hdb; [done|].
  simpl. pose proof (onMessage_stored_ok env m db Hdb) as H1.
  destruct (onMessage env m db) as [e1 db1]. specialize (IH db1 H1).
  by destruct (run rest db1).
Qed.

Lemma stored_ok_empty : Invariants.stored_ok emptyDatabase.
Proof. split; [done|]. intros k r. simpl. by rewrite lookup_empty. Qed.

(** X5.  In any store the listener can reach from the empty one, every
    record sits under the key its [id] names, that key is at least 1 and
    below the key generator's number, and the record's [contentType] passes
    the JSON filter. *)
Theorem reachable_store_ok (deliveries : list (Env * Message)) :
  Invariants.stored_ok (run deliveries emptyDatabase).2.
Proof. apply run_stored_ok, stored_ok_empty. Qed.

(** ** The delete button *)

Lemma digitValue_pretty_char (d : N) :
  (d < 10)%N → digitValue 10 (pretty_N_char d) = Some (Z.of_N d).
Proof.
  intros Hd.
  assert (d = 0 ∨ d = 1 ∨ d = 2 ∨ d = 3 ∨ d = 4 ∨ d = 5 ∨ d = 6 ∨ d = 7
          ∨ d = 8 ∨ d = 9)%N as Hcases by lia.
  by repeat (destruct Hcases as [-> | Hcases]; [done|]); subst.
Qed.

(** Reading back the digits [pretty] wrote. *)
Lemma parseDigits_pretty_go (x : N) (s : string) (acc : option Z) :
  default 0 acc = 0 →
  parseDigits 10 acc (pretty_N_go x s)
  = parseDigits 10 (if decide (x = 0%N) then acc else Some (Z.of_N x)) s.
Proof.
  revert s acc. induction (N.lt_wf_0 x) as [x _ IH]. intros s acc Hacc.
  destruct (decide (x = 0%N)) as [->|Hx]; [by rewrite pretty_N_go_0|].
  rewrite pretty_N_go_step by lia.
  rewrite IH; [| apply N.div_lt; lia | done].
  simpl. rewrite digitValue_pretty_char by (apply N.mod_lt; lia).
  f_equal. f_equal.
  pose proof (N.div_mod x 10 ltac:(lia)) as Hdm.
  destruct (decide ((x `div` 10)%N = 0%N)) as [H0|H0]; simpl.
  - rewrite Hacc. rewrite H0 in Hdm. lia.
  - lia.
Qed.

(** The text [pretty] writes for a positive number starts with a digit,
    and a digit or nothing follows. *)
Lemma pretty_go_shape (x : N) (s : string) :
  (0 < x)%N →
  (s = "" ∨ ∃ d r, (d < 10)%N ∧ s = String (pretty_N_char d) r) →
  ∃ d r, (d < 10)%N ∧ pretty_N_go x s = String (pretty_N_char d) r
         ∧ (r = "" ∨ ∃ d' r', (d' < 10)%N ∧ r = String (pretty_N_char d') r').
Proof.
  revert s. induction (N.lt_wf_0 x) as [x _ IH]. intros s Hx Hs.
  rewrite pretty_N_go_step by done.
  assert ((x `mod` 10 < 10)%N) as Hm by (apply N.mod_lt; lia).
  destruct (decide ((x `div` 10)%N = 0%N)) as [H0|H0].
  - rewrite H0, pretty_N_go_0. by exists (x `mod` 10)%N, s.
  - apply IH; [apply N.div_lt; lia | by apply N.neq_0_lt_0 |].
    right. by eexists _, _.
Qed.

Lemma parseInt_plain (d : N) (r : string) :
  (d < 10)%N →
  (r = "" ∨ ∃ d' r', (d' < 10)%N ∧ r = String (pretty_N_char d') r') →
  parseInt (String (pretty_N_char d) r)
  = match parseDigits 10 None (String (pretty_N_char d) r) with
    | Some v => Int (1 * v)
    | None => NaN
    end.
Proof.
  intros Hd Hr.
  assert (d = 0 ∨ d = 1 ∨ d = 2 ∨ d = 3 ∨ d = 4 ∨ d = 5 ∨ d = 6 ∨ d = 7
          ∨ d = 8 ∨ d = 9)%N as Hcases by lia.
  destruct Hr as [-> | (d' & r' & Hd' & ->)].
  - destruct Hcases as [->|[->|[->|[->|[->|[->|[->|[->|[->| ->]]]]]]]]];
      reflexivity.
  - assert (d' = 0 ∨ d' = 1 ∨ d' = 2 ∨ d' = 3 ∨ d' = 4 ∨ d' = 5 ∨ d' = 6
            ∨ d' = 7 ∨ d' = 8 ∨ d' = 9)%N as Hcases' by lia.
    destruct Hcases as [->|[->|[->|[->|[->|[->|[->|[->|[->| ->]]]]]]]]];
      destruct Hcases' as [->|[->|[->|[->|[->|[->|[->|[->|[->| ->]]]]]]]]];
      reflexivity.
Qed.

(** [parseInt] reads back the decimal text of a key. *)
Lemma parseInt_pretty (k : Z) : 0 ≤ k → parseInt (pretty k) = Int k.
Proof.
  intros Hk. destruct k as [|p|p]; [done| |lia].
  change (pretty (Z.pos p)) with (pretty_N_go (N.pos p) "").
  destruct (pretty_go_shape (N.pos p) "" ltac:(lia) ltac:(by left))
    as (d & r & Hd & Heq & Hr).
  rewrite Heq, parseInt_plain by done. rewrite <- Heq.
  rewrite parseDigits_pretty_go by done. reflexivity.
Qed.

Lemma pretty_nonempty (k : Z) : 0 ≤ k → pretty k ≠ "".
Proof.
  intros Hk Hp. pose proof (parseInt_pretty k Hk) as H. by rewrite Hp in H.
Qed.

(** X6.  The delete button of a displayed log whose [url] and [method]
    hold no [<] deletes that log and no other: in a store the listener
    keeps, whose key generator is within its range, the handler sits on the
    log's own button, the id written into it reads back as the log's key,
    the listener answers success, and afterwards every session's logs are
    what they were, minus that log. *)
Theorem delete_button_removes_log (env : Env) (db : Database)
    (session : string) (r : RequestData) :
  Invariants.stored_ok db → currentNumber db ≤ MAX_GENERATED_KEY + 1 →
  engine env = Healthy →
  r ∈ index_getAll session db →
  includes "<" (url r) = false → includes "<" (method r) = false →
  ∃ k, id r = Some k
       ∧ 1 ≤ k ≤ MAX_GENERATED_KEY
       ∧ Popup.deleteButtonLogId r = Some (pretty k)
       ∧ Popup.onDeleteClick (pretty k) = Some (DELETE_LOG (pretty k))
       ∧ let out := onMessage env (DELETE_LOG (pretty k)) db in
         out.1 = [StoreDelete (Int k) (Normal ()); SendResponse ReplyDeleted]
         ∧ ∀ s' r', r' ∈ index_getAll s' out.2
                    ↔ r' ∈ index_getAll s' db ∧ r' ≠ r.
Proof.
  intros [_ Hok] Hmax Hh (k & Hl & Hs)%index_getAll_elem Hu Hm.
  destruct (Hok _ _ Hl) as (Hid & Hk & _).
  exists k. split; [done|]. split; [lia|]. split.
  { unfold Popup.deleteButtonLogId, Popup.dataLogId.
    by rewrite Hu, Hm, Hid. }
  split.
  { unfold Popup.onDeleteClick.
    pose proof (pretty_nonempty k ltac:(lia)) as Hne.
    by apply String.eqb_neq in Hne as ->. }
  simpl. rewrite Hh, parseInt_pretty by lia. simpl. split; [done|].
  intros s' r'. rewrite !index_getAll_elem. simpl. split.
  - intros (k' & Hl' & Hs'). rewrite lookup_delete in Hl'.
    case_decide as Hkk; [done|]. split; [by exists k'|].
    intros ->. destruct (Hok _ _ Hl') as (Hid' & _). congruence.
  - intros [(k' & Hl' & Hs') Hne]. exists k'. split; [|done].
    rewrite lookup_delete. case_decide as Hkk; [|done].
    subst k'. congruence.
Qed.

Lemma delete_button_removes_log_witness :
  ∃ k, id (with_id 1 (toRequestData Samples.jsonCapture "s")) = Some k
       ∧ 1 ≤ k ≤ MAX_GENERATED_KEY
       ∧ Popup.deleteButtonLogId
           (with_id 1 (toRequestData Samples.jsonCapture "s"))
         = Some (pretty k)
       ∧ Popup.onDeleteClick (pretty k) = Some (DELETE_LOG (pretty k))
       ∧ let db :=
           (run [(Samples.healthy, INTERCEPTED_REQUEST Samples.jsonCapture "s");
                 (Samples.healthy, INTERCEPTED_REQUEST Samples.forgedCapture "s")]
              emptyDatabase).2 in
         let out := onMessage Samples.healthy (DELETE_LOG (pretty k)) db in
         out.1 = [StoreDelete (Int k) (Normal ()); SendResponse ReplyDeleted]
         ∧ ∀ s' r', r' ∈ index_getAll s' out.2
                    ↔ r' ∈ index_getAll s' db
                      ∧ r' ≠ with_id 1 (toRequestData Samples.jsonCapture "s").
Proof.
  apply (delete_button_removes_log Samples.healthy
           (run [(Samples.healthy, INTERCEPTED_REQUEST Samples.jsonCapture "s");
                 (Samples.healthy, INTERCEPTED_REQUEST Samples.forgedCapture "s")]
              emptyDatabase).2 "s").
  - apply run_stored_ok, stored_ok_empty.
  - vm_compute. discriminate.
  - reflexivity.
  - vm_compute. apply list_elem_of_here.
  - reflexivity.
  - reflexivity.
Defined.

Example delete_button_text :
  Popup.dataLogId (with_id 42 (toRequestData Samples.jsonCapture "s")) = "42"
  ∧ parseInt "42" = Int 42.
Proof. split; reflexivity. Qed.

(** A log whose [url] brings a button of its own: which element the
    handler sits on is left open. *)
Example delete_button_of_markup :
  Popup.deleteButtonLogId
    (Samples.logAt "<button class='delete-button' data-log-id='7'></button>"
       "[1]" 10 1)
  = None.
Proof. reflexivity. Qed.

(** ** The provider calls *)

Lemma formatLogs_Normal (logs : list RequestData) (fl : list FormattedLog) :
  formatLogs logs = Normal fl → fl = formatLog <$> logs.
Proof. unfold formatLogs. case_match; [by intros [= <-] | done]. Qed.

Lemma formatLogs_Throw (logs : list RequestData) (e : string) :
  formatLogs logs = Throw e → e = "Invalid time value".
Proof. unfold formatLogs. case_match; [done | by intros [= <-]]. Qed.

Lemma orElse_fallback_truthy (t : Value) :
  truthy (orElse t (VString "No answer found.")) = true.
Proof. unfold orElse. by destruct (truthy t) eqn:Ht. Qed.

Lemma geminiExchange_Normal (response : HttpResponse) (v : Value) :
  geminiExchange response = Normal v → ok response = true ∧ truthy v = true.
Proof.
  unfold geminiExchange. destruct (ok response); simpl.
  - destruct (json response) as [data|e]; simpl; [|done].
    destruct (get data (Name "candidates")) as [c|e]; simpl; [|done].
    intros [= <-]. split; [done | apply orElse_fallback_truthy].
  - destruct (json response) as [data|e]; simpl; [|done].
    destruct (get data (Name "error")) as [err|e]; simpl; [|done].
    by destruct (get err (Name "message")).
Qed.

Lemma openRouterExchange_Normal (response : HttpResponse) (v : Value) :
  openRouterExchange response = Normal v →
  ok response = true ∧ truthy v = true.
Proof.
  unfold openRouterExchange. destruct (ok response); simpl.
  - destruct (json response) as [data|e]; simpl; [|done].
    destruct (get data (Name "choices")) as [c|e]; simpl; [|done].
    intros [= <-]. split; [done | apply orElse_fallback_truthy].
  - destruct (json response) as [data|e]; simpl; [|done].
    destruct (get data (Name "error")) as [err|e]; simpl; [|done].
    by destruct (get err (Name "message")).
Qed.

(** X7.  Either provider call returns an answer only when the provider
    replied with a success status, and the answer it returns is never an
    empty or otherwise falsy value: a non-success response, a network
    failure or an unformattable log always ends in an error. *)
Theorem answer_only_on_success (modelId : string) (net : Network)
    (apiKey : string) (logs : list RequestData) (question : string)
    (v : Value) :
  ((callGeminiAPI modelId net apiKey logs question).2 = Normal v →
   ∃ response,
     net (geminiRequest modelId apiKey (formatLog <$> logs) question)
     = Normal response
     ∧ ok response = true ∧ truthy v = true)
  ∧ ((callOpenRouterAPI net apiKey logs question).2 = Normal v →
     ∃ response,
       net (openRouterRequest apiKey (formatLog <$> logs) question)
       = Normal response
       ∧ ok response = true ∧ truthy v = true).
Proof.
  unfold callGeminiAPI, callOpenRouterAPI.
  destruct (formatLogs logs) as [fl|e] eqn:Hfl; simpl; [|done].
  apply formatLogs_Normal in Hfl as ->. split.
  - destruct (net (geminiRequest _ _ _ _)) as [response|e]; simpl; [|done].
    destruct (geminiExchange response) as [v'|e] eqn:Hx; simpl; [|done].
    intros [= ->]. exists response. split; [done|].
    by apply geminiExchange_Normal.
  - destruct (net (openRouterRequest _ _ _)) as [response|e]; simpl; [|done].
    destruct (openRouterExchange response) as [v'|e] eqn:Hx; simpl; [|done].
    intros [= ->]. exists response. split; [done|].
    by apply openRouterExchange_Normal.
Qed.

Lemma answer_only_on_success_witness :
  ∃ response,
    Samples.replying Samples.emptyAnswer
      (geminiRequest GEMINI_MODEL "AIzaSyExampleExample"
         (formatLog <$> Samples.threeLogs) "what is a?")
    = Normal response
    ∧ ok response = true
    ∧ truthy (VString "No answer found.") = true.
Proof.
  destruct (answer_only_on_success GEMINI_MODEL
              (Samples.replying Samples.emptyAnswer) "AIzaSyExampleExample"
              Samples.threeLogs "what is a?" (VString "No answer found."))
    as (H & _).
  apply H. reflexivity.
Defined.

Lemma rethrow_Throw {A} (prefix : string) (c : Completion A) (e : string) :
  rethrow prefix c = Throw e → startsWith prefix e = true.
Proof.
  destruct c as [a|e']; [done|]. intros [= <-].
  apply startsWith_spec. by exists e'.
Qed.

(** X8.  An error of either provider call is of one of two kinds: the
    logs could not be formatted (a timestamp outside the range of [Date]),
    no request was made and the error is the bare [Invalid time value]; or
    exactly one request was made and the error message starts with the
    call's [Failed to communicate with ...] prefix. *)
Theorem provider_errors_wrapped (modelId : string) (net : Network)
    (apiKey : string) (logs : list RequestData) (question : string)
    (e : string) :
  let gemini := callGeminiAPI modelId net apiKey logs question in
  let openRouter := callOpenRouterAPI net apiKey logs question in
  (gemini.2 = Throw e →
   (gemini.1 = [] ∧ e = "Invalid time value"
    ∧ forallb (λ log, toISOString_ok (timestamp log)) logs = false)
   ∨ (gemini.1 = [geminiRequest modelId apiKey (formatLog <$> logs) question]
      ∧ startsWith "Failed to communicate with Gemini API: " e = true))
  ∧ (openRouter.2 = Throw e →
     (openRouter.1 = [] ∧ e = "Invalid time value"
      ∧ forallb (λ log, toISOString_ok (timestamp log)) logs = false)
     ∨ (openRouter.1 = [openRouterRequest apiKey (formatLog <$> logs) question]
        ∧ startsWith "Failed to communicate with OpenRouter API: " e = true)).
Proof.
  cbv zeta. unfold callGeminiAPI, callOpenRouterAPI, formatLogs.
  destruct (forallb _ logs); cbn [fst snd].
  - split; intros He; right; (split; [done|]);
      by apply rethrow_Throw in He.
  - split; intros [= <-]; by left.
Qed.

Lemma provider_errors_wrapped_witness :
  ((callGeminiAPI GEMINI_MODEL Samples.offline "AIzaSyExampleExample"
      Samples.threeLogs "what is a?").1 = []
   ∧ "Failed to communicate with Gemini API: Failed to fetch"
     = "Invalid time value"
   ∧ forallb (λ log, toISOString_ok (timestamp log)) Samples.threeLogs = false)
  ∨ ((callGeminiAPI GEMINI_MODEL Samples.offline "AIzaSyExampleExample"
        Samples.threeLogs "what is a?").1
     = [geminiRequest GEMINI_MODEL "AIzaSyExampleExample"
          (formatLog <$> Samples.threeLogs) "what is a?"]
     ∧ startsWith "Failed to communicate with Gemini API: "
         "Failed to communicate with Gemini API: Failed to fetch" = true).
Proof.
  destruct (provider_errors_wrapped GEMINI_MODEL Samples.offline
              "AIzaSyExampleExample" Samples.threeLogs "what is a?"
              "Failed to communicate with Gemini API: Failed to fetch")
    as (H & _).
  apply H. reflexivity.
Defined.

(** X9.  A success response whose body holds a truthy value at the
    expected path ([candidates[0].content.parts[0].text] for Gemini,
    [choices[0].message.content] for OpenRouter) is answered with that very
    value. *)
Theorem answer_passed_unchanged (modelId : string) (net : Network)
    (apiKey : string) (logs : list RequestData) (question : string)
    (response : HttpResponse) (data : Value) :
  forallb (λ log, toISOString_ok (timestamp log)) logs = true →
  ok response = true → json response = Normal data →
  data ≠ VNull → data ≠ VUndefined →
  (∀ t,
     net (geminiRequest modelId apiKey (formatLog <$> logs) question)
     = Normal response →
     getOpt (getOpt (getOpt (getOpt (getOpt (getOwn data (Name "candidates"))
       (Index 0)) (Name "content")) (Name "parts")) (Index 0)) (Name "text")
     = t →
     truthy t = true →
     (callGeminiAPI modelId net apiKey logs question).2 = Normal t)
  ∧ (∀ t,
       net (openRouterRequest apiKey (formatLog <$> logs) question)
       = Normal response →
       getOpt (getOpt (getOpt (getOwn data (Name "choices")) (Index 0))
         (Name "message")) (Name "content") = t →
       truthy t = true →
       (callOpenRouterAPI net apiKey logs question).2 = Normal t).
Proof.
  intros Hts Hok Hjson Hn Hu.
  unfold callGeminiAPI, callOpenRouterAPI, formatLogs. rewrite Hts. simpl.
  split; intros t -> Ht Htruthy; simpl;
    unfold geminiExchange, openRouterExchange; rewrite Hok, Hjson;
    cbn [negb mbind completion_bind]; rewrite get_defined by done;
    unfold mbind, completion_bind, orElse; cbv beta iota zeta;
    by rewrite Ht, Htruthy.
Qed.

Lemma answer_passed_unchanged_witness :
  (callGeminiAPI GEMINI_MODEL (Samples.replying Samples.geminiAnswer)
     "AIzaSyExampleExample" Samples.threeLogs "what is a?").2
  = Normal (VString "a is 1").
Proof.
  destruct (answer_passed_unchanged GEMINI_MODEL
              (Samples.replying Samples.geminiAnswer) "AIzaSyExampleExample"
              Samples.threeLogs "what is a?" Samples.geminiAnswer
              (VObject [("candidates",
                 VArray [VObject [("content",
                   VObject [("parts",
                     VArray [VObject [("text", VString "a is 1")]])])]])]))
    as (H & _); [reflexivity | reflexivity | reflexivity | discriminate ..|].
  by apply H.
Defined.

(** ** Asking, end to end *)

Lemma fetch_in_answerOrError (s : string)
    (call : list ProviderRequest * Completion Value) (req : ProviderRequest) :
  Fetch req ∈ StoreQuery s :: answerOrError call → req ∈ call.1.
Proof.
  intros [Hin|Hin]%elem_of_cons; [done|]. unfold answerOrError in Hin.
  apply elem_of_app in Hin as [Hin|Hin].
  - apply list_elem_of_fmap in Hin as (req' & [= ->] & Hin). done.
  - destruct call.2; elem_cases Hin.
Qed.

Lemma callGeminiAPI_request (modelId : string) (net : Network)
    (apiKey : string) (logs : list RequestData) (question : string)
    (req : ProviderRequest) :
  req ∈ (callGeminiAPI modelId net apiKey logs question).1 →
  req = geminiRequest modelId apiKey (formatLog <$> logs) question.
Proof.
  unfold callGeminiAPI, formatLogs.
  destruct (forallb _ logs); simpl; intros Hin; elem_cases Hin. done.
Qed.

Lemma callOpenRouterAPI_request (net : Network) (apiKey : string)
    (logs : list RequestData) (question : string) (req : ProviderRequest) :
  req ∈ (callOpenRouterAPI net apiKey logs question).1 →
  req = openRouterRequest apiKey (formatLog <$> logs) question.
Proof.
  unfold callOpenRouterAPI, formatLogs.
  destruct (forallb _ logs); simpl; intros Hin; elem_cases Hin. done.
Qed.

(** X10.  Whatever request an Ask hands to [fetch], it was built after the
    engine served the log query, from the question as asked, the stored key
    of the provider in use, and the projection of the asked session's logs:
    every log in the prompt is a stored record of that session, and no
    record of another session is in it. *)
Theorem ask_sends_session_logs (env : Env) (session question : string)
    (db : Database) (req : ProviderRequest) :
  Fetch req ∈ onAsk env session question db →
  engine env = Healthy
  ∧ prompt_question req = question
  ∧ prompt_logs req = formatLog <$> index_getAll session db
  ∧ (∀ fl, fl ∈ prompt_logs req →
           ∃ k r, records db !! k = Some r ∧ pageLoadId r = session
                  ∧ fl = formatLog r)
  ∧ ((∃ key, geminiApiKey (storage env) = Some key
             ∧ req = geminiRequest GEMINI_MODEL key (prompt_logs req) question)
     ∨ (∃ key, openrouterApiKey (storage env) = Some key
               ∧ req = openRouterRequest key (prompt_logs req) question)).
Proof.
  intros Hin.
  assert (engine env = Healthy
          ∧ ((∃ key, geminiApiKey (storage env) = Some key
                     ∧ req = geminiRequest GEMINI_MODEL key
                               (formatLog <$> index_getAll session db) question)
             ∨ (∃ key, openrouterApiKey (storage env) = Some key
                       ∧ req = openRouterRequest key
                                 (formatLog <$> index_getAll session db)
                                 question))) as [Hh Hreq].
  { unfold onAsk in Hin.
    destruct (String.eqb _ "gemini").
    - unfold askGemini in Hin.
      destruct (truthy_str (geminiApiKey (storage env))) eqn:Hk;
        cbn [negb] in Hin; [|elem_cases Hin].
      apply truthy_str_Some in Hk as (key & Hkey & _). rewrite Hkey in Hin.
      change (default "" (Some key)) with key in Hin.
      destruct (negb (startsWith "AI" key) || (String.length key <? 10)%nat);
        [elem_cases Hin|].
      destruct (engine env); simpl in Hin; [|elem_cases Hin].
      split; [done|]. left. exists key. split; [done|].
      apply fetch_in_answerOrError in Hin.
      by apply callGeminiAPI_request in Hin.
    - destruct (String.eqb _ "openrouter"); [|elem_cases Hin].
      unfold askOpenRouter in Hin.
      destruct (truthy_str (openrouterApiKey (storage env))) eqn:Hk;
        cbn [negb] in Hin; [|elem_cases Hin].
      apply truthy_str_Some in Hk as (key & Hkey & _). rewrite Hkey in Hin.
      change (default "" (Some key)) with key in Hin.
      destruct (engine env); simpl in Hin; [|elem_cases Hin].
      split; [done|]. right. exists key. split; [done|].
      apply fetch_in_answerOrError in Hin.
      by apply callOpenRouterAPI_request in Hin. }
  assert (prompt_question req = question
          ∧ prompt_logs req = formatLog <$> index_getAll session db)
    as [Hq Hlogs].
  { by destruct Hreq as [(key & _ & ->) | (key & _ & ->)]. }
  split; [done|]. split; [done|]. split; [done|]. split.
  - intros fl. rewrite Hlogs.
    intros (r & -> & Hr)%list_elem_of_fmap.
    apply index_getAll_elem in Hr as (k & Hl & Hs). by exists k, r.
  - by rewrite Hlogs.
Qed.

Lemma ask_sends_session_logs_witness :
  size (records Samples.twoSessions) = 2%nat
  ∧ length (prompt_logs Samples.askAboutItems) = 1%nat
  ∧ prompt_logs Samples.askAboutItems
    = formatLog <$> index_getAll "1700000000000" Samples.twoSessions
  ∧ (∀ fl, fl ∈ prompt_logs Samples.askAboutItems →
           ∃ k r, records Samples.twoSessions !! k = Some r
                  ∧ pageLoadId r = "1700000000000" ∧ fl = formatLog r).
Proof.
  destruct (ask_sends_session_logs Samples.goodGeminiKey "1700000000000"
              "what is field a?" Samples.twoSessions Samples.askAboutItems)
    as (_ & _ & Hlogs & Hstored & _).
  - vm_compute. apply list_elem_of_further, list_elem_of_here.
  - split; [by vm_compute|]. split; [reflexivity|]. by split.
Defined.

(** X11.  When the Ask preconditions fail (the chosen provider's key is
    absent or empty, or the Gemini key is malformed), what the listener
    replies makes the popup show an error message together with the link to
    the key settings. *)
Theorem key_errors_link_to_settings (env : Env) (session question : string)
    (db : Database) :
  let result := storage env in
  let absent (key : option string) := key = None ∨ key = Some "" in
  let gemini :=
    absent (apiProvider result) ∨ apiProvider result = Some "gemini" in
  (gemini ∧ (absent (geminiApiKey result)
             ∨ ∃ k, geminiApiKey result = Some k ∧ k ≠ ""
                    ∧ (startsWith "AI" k = false ∨ (String.length k < 10)%nat)))
  ∨ (apiProvider result = Some "openrouter"
     ∧ absent (openrouterApiKey result)) →
  ∃ e, (onMessage env (ASK_GEMINI session question) db).1
       = [SendResponse (ReplyError e)]
       ∧ Popup.onAskResponse (ReplyError e)
         = Normal (Popup.ErrorMessage ("Error: " +:+ e) true).
Proof.
  simpl. intros [[Hg Hkey] | [Ho Hkey]].
  - assert (onAsk env session question db
            = askGemini GEMINI_MODEL env (geminiApiKey (storage env)) session
                question db) as ->.
    { unfold onAsk. by destruct Hg as [[-> | ->] | ->]. }
    destruct Hkey as [Hkey | (k & -> & Hk & Hbad)].
    + exists MISSING_KEY. by rewrite askGemini_missing.
    + exists INVALID_KEY. by rewrite askGemini_invalid.
  - exists MISSING_OPENROUTER_KEY. unfold onAsk, askOpenRouter. rewrite Ho.
    simpl. by rewrite (falsy_str _ Hkey).
Qed.

Lemma key_errors_link_to_settings_witness :
  ∃ e, (onMessage Samples.shortGeminiKey
          (ASK_GEMINI "1700000000000" "what is field a?") emptyDatabase).1
       = [SendResponse (ReplyError e)]
       ∧ Popup.onAskResponse (ReplyError e)
         = Normal (Popup.ErrorMessage ("Error: " +:+ e) true).
Proof.
  apply (key_errors_link_to_settings Samples.shortGeminiKey "1700000000000"
           "what is field a?" emptyDatabase).
  left. split; [by right|]. right. exists "AIza".
  split; [reflexivity|]. split; [discriminate|]. right. simpl. lia.
Defined.

(** ** What the interceptor captures *)

(** X12.  When the original [fetch] resolves to an untaken response whose
    body decodes, and the flag is truthy when the read settles, exactly one
    capture is posted: it carries the decoded body, the response's
    [Content-Type] header, the clock of that moment and no [id]; the URL and
    method are those of the [Request] object when one was passed (the
    [init] argument is not consulted), else the resource's string form and
    [init.method], or [GET] when that is absent or empty.  A resource
    without a string form yields a logged error and no capture. *)
Theorem armed_fetch_capture (originalFetch : Interceptor.OriginalFetch)
    (args : Interceptor.FetchArgs) (h h1 : list Interceptor.Response)
    (r : nat) (o : Interceptor.Response) (body : string) (v : Value)
    (now : Z) :
  originalFetch args h = (Normal r, h1) →
  h1 !! r = Some o → Interceptor.bodyUsed o = false →
  Interceptor.bodyText o = Normal body → truthy v = true →
  let call := Interceptor.window_fetch originalFetch args h in
  let capture u m :=
    [Interceptor.EvPostMessage
       {| ir_url := u; ir_method := m; ir_responseBody := body;
          ir_contentType := Interceptor.contentTypeHeader o;
          ir_timestamp := now; ir_id := None |}] in
  ∃ p, Interceptor.scheduled call = Some p
       ∧ Interceptor.onTextSettled v now p (Interceptor.heap_after call)
         = match Interceptor.input args, Interceptor.initMethod args with
           | Interceptor.RequestObject u m, _ => capture u m
           | Interceptor.Resource (Some u), Some m =>
               capture u (if String.eqb m "" then "GET" else m)
           | Interceptor.Resource (Some u), None => capture u "GET"
           | Interceptor.Resource None, _ =>
               [Interceptor.EvConsoleError
                  "Cannot read properties of undefined (reading 'toString')"]
           end.
Proof.
  intros Horig Hr Hfresh Hbody Hv.
  pose proof (lookup_lt_Some _ _ _ Hr) as Hlt.
  unfold Interceptor.window_fetch. rewrite Horig.
  unfold Interceptor.clone. rewrite Hr, Hfresh. unfold Interceptor.text.
  rewrite lookup_app_r by lia. rewrite Nat.sub_diag. simpl. rewrite Hfresh.
  simpl. eexists. split; [done|].
  unfold Interceptor.onTextSettled. simpl. rewrite Hbody, Hv.
  rewrite insert_app_r_alt by lia. rewrite lookup_app_l by lia. rewrite Hr.
  simpl.
  destruct (Interceptor.input args) as [u m|[u|]]; [done| |done].
  destruct (Interceptor.initMethod args) as [m|]; [|done].
  simpl. by destruct (String.eqb m "").
Qed.

Lemma armed_fetch_capture_witness :
  ∃ p, Interceptor.scheduled
         (Interceptor.window_fetch (Samples.nativeFetch Samples.jsonResponse)
            Samples.postItems []) = Some p
       ∧ Interceptor.onTextSettled (VBool true) 1700000000000 p
           (Interceptor.heap_after
              (Interceptor.window_fetch
                 (Samples.nativeFetch Samples.jsonResponse)
                 Samples.postItems []))
         = [Interceptor.EvPostMessage
              {| ir_url := "https://example.test/api/items";
                 ir_method := "POST"; ir_responseBody := "[1]";
                 ir_contentType := Some "application/json; charset=utf-8";
                 ir_timestamp := 1700000000000; ir_id := None |}].
Proof.
  apply (armed_fetch_capture (Samples.nativeFetch Samples.jsonResponse)
           Samples.postItems [] [Samples.jsonResponse] 0%nat
           Samples.jsonResponse "[1]" (VBool true) 1700000000000);
    reflexivity.
Defined.

(** Over handlers that return and leave the object alone the two runs of
    [onload] are the same. *)
Lemma run_onload_returns (v : Value) (n : nat) (x : Interceptor.Xhr)
    (resp : Interceptor.XhrResponse) (now : Z) (h : Interceptor.Onload) :
  PageHandlers.run_onload (λ _, PageHandlers.returns) v n x resp now h
  = (Interceptor.run_onload v n x resp now h, (x, resp)).
Proof.
  induction h as [|f|h IH]; simpl; [done | done |]. rewrite IH.
  destruct (Interceptor.run_onload v n x resp now h) as [ev completed].
  destruct completed; [|done]. destruct (truthy v); [|done].
  by destruct (Interceptor.xhr_capture x resp now).
Qed.

Lemma mjoin_replicate_singleton {A} (k : nat) (a : A) :
  mjoin (replicate k [a]) = replicate k a.
Proof. induction k as [|k IH]; [done|]. simpl. by rewrite IH. Qed.






(** A handler that throws, on an object sent twice: no capture.  One that
    opens the object for another URL: the captures name that URL and hold
    nothing of the response. *)
Example xhr_handler_throws :
  (PageHandlers.run_onload
     (λ _, {| PageHandlers.reopens := None;
              PageHandlers.throws := Some "TypeError" |})
     (VBool true) 0
     (Nat.iter 2 (λ x, (Interceptor.xhr_send 0 x).1) Samples.openedXhr)
     Samples.textXhrResponse 1700000000000
     (Interceptor.onload
        (Nat.iter 2 (λ x, (Interceptor.xhr_send 0 x).1) Samples.openedXhr))).1.1
  = [Interceptor.EvPageOnload 0 7; Interceptor.EvUncaught "TypeError"].
Proof. reflexivity. Qed.

Example xhr_handler_reopens :
  (PageHandlers.run_onload
     (λ _, {| PageHandlers.reopens :=
                Some ("GET", Some "https://example.test/api/next");
              PageHandlers.throws := None |})
     (VBool true) 0
     (Nat.iter 1 (λ x, (Interceptor.xhr_send 0 x).1) Samples.openedXhr)
     Samples.textXhrResponse 1700000000000
     (Interceptor.onload
        (Nat.iter 1 (λ x, (Interceptor.xhr_send 0 x).1) Samples.openedXhr))).1.1
  = [Interceptor.EvPageOnload 0 7;
     Interceptor.EvOriginalOpen 0 "GET" (Some "https://example.test/api/next");
     PageHandlers.capture "https://example.test/api/next" "GET" "" None
       1700000000000].
Proof. reflexivity. Qed.

(** X14.  A request object whose [responseType] is neither empty nor
    [text] is never captured, whatever its [onload] and whatever the flag:
    the page's own handlers still run first, and when the flag is truthy
    the handler [send] installed ends in an uncaught [InvalidStateError]
    instead of a capture. *)
Theorem xhr_non_text_never_captured (v : Value) (n : nat)
    (x : Interceptor.Xhr) (resp : Interceptor.XhrResponse) (now : Z)
    (h : Interceptor.Onload) :
  Interceptor.responseType resp ≠ "" →
  Interceptor.responseType resp ≠ "text" →
  let events := (Interceptor.run_onload v n x resp now h).1 in
  Forall (λ e, Interceptor.isPost e = false) events
  ∧ Interceptor.pageHandlers n h `prefix_of` events
  ∧ (truthy v = true →
     (h = Interceptor.Patched Interceptor.NoOnload
      ∨ ∃ f, h = Interceptor.Patched (Interceptor.PageHandler f)) →
     events = (Interceptor.pageHandlers n h
               ++ [Interceptor.EvUncaught "InvalidStateError"])%list).
Proof.
  intros H1 H2. simpl.
  assert (Interceptor.xhr_capture x resp now
          = ([Interceptor.EvUncaught "InvalidStateError"], false)) as Hcap.
  { unfold Interceptor.xhr_capture.
    apply String.eqb_neq in H1, H2. by rewrite H1, H2. }
  split; [|split].
  - induction h as [|f|h IH]; simpl; [done | by repeat constructor |].
    destruct (Interceptor.run_onload v n x resp now h) as [ev completed].
    destruct completed; [|done]. destruct (truthy v); [|done].
    rewrite Hcap. simpl. apply Forall_app. split; [done | by repeat constructor].
  - apply run_onload_page_first.
  - intros Hv [-> | [f ->]]; simpl; by rewrite Hv, Hcap.
Qed.

Lemma xhr_non_text_never_captured_witness :
  (Interceptor.run_onload (VBool true) 0 Samples.openedXhr
     Samples.jsonXhrResponse 1700000000000
     (Interceptor.Patched (Interceptor.PageHandler 7))).1
  = (Interceptor.pageHandlers 0 (Interceptor.Patched (Interceptor.PageHandler 7))
     ++ [Interceptor.EvUncaught "InvalidStateError"])%list.
Proof.
  destruct (xhr_non_text_never_captured (VBool true) 0 Samples.openedXhr
              Samples.jsonXhrResponse 1700000000000
              (Interceptor.Patched (Interceptor.PageHandler 7)))
    as (_ & _ & H); [discriminate | discriminate |].
  apply H; [reflexivity|]. right. by exists 7%nat.
Defined.

(** X15.  A handler the page assigns to [onload] after [send] replaces the
    one [send] installed: on load only the page's handler runs and nothing
    is captured, whatever the flag and the response. *)
Theorem onload_after_send_drops_capture
    (originalFetch : Interceptor.OriginalFetch) (st : Interceptor.State)
    (x : nat) (m : string) (u : option string) (f : nat)
    (resp : Interceptor.XhrResponse) (now : Z) :
  (Interceptor.run originalFetch st
     [Interceptor.PageOpen x m u; Interceptor.PageSend x;
      Interceptor.PageSetOnload x f; Interceptor.Load x resp now]).2
  = [Interceptor.EvOriginalOpen x m u; Interceptor.EvOriginalSend x;
     Interceptor.EvPageOnload x f].
Proof.
  simpl. unfold Interceptor.xhrOf. simpl.
  by rewrite !lookup_insert_eq.
Qed.

(** ** A page load, end to end *)







(** A capture message the page posts itself is forwarded and stored like
    the interceptor's, switched off or not. *)
Example page_posted_capture_is_stored :
  responseBody <$>
    index_getAll "1700000000000"
      (Pipeline.pageLoad Samples.healthy
         (Samples.nativeFetch Samples.jsonResponse) "1700000000000"
         [Interceptor.WindowMessage true
            (ContentScript.onSetActivationState (VBool false));
          Interceptor.WindowMessage true (INTERCEPTED Samples.forgedCapture)]
         emptyDatabase).2
  = ["[2]"].
Proof. vm_compute. reflexivity. Qed.





(** ** The popup's list *)

Section PopupList.

Variables (toLowerCase trim : string → string).

Lemma insertNewest_perm (x : RequestData) (l : list RequestData) :
  Popup.insertNewest x l ≡ₚ x :: l.
Proof.
  induction l as [|y l IH]; simpl; [done|].
  destruct (timestamp y <=? timestamp x); [done|].
  rewrite IH. apply Permutation_swap.
Qed.

Lemma sortNewestFirst_perm (l : list RequestData) :
  Popup.sortNewestFirst l ≡ₚ l.
Proof.
  induction l as [|x l IH]; simpl; [done|].
  by rewrite insertNewest_perm, IH.
Qed.

Lemma insertNewest_sorted (x : RequestData) (l : list RequestData) :
  StronglySorted Popup.newestFirst l → StronglySorted Popup.newestFirst (Popup.insertNewest x l).
Proof.
  induction 1 as [|y l Hs IH Hy]; simpl; [by repeat constructor|].
  destruct (Z.leb_spec (timestamp y) (timestamp x)).
  - constructor; [by constructor|]. constructor; [done|].
    eapply Forall_impl; [exact Hy|]. unfold Popup.newestFirst. simpl. lia.
  - constructor; [done|]. rewrite insertNewest_perm.
    constructor; [unfold Popup.newestFirst; lia | done].
Qed.

Lemma sortNewestFirst_sorted (l : list RequestData) :
  StronglySorted Popup.newestFirst (Popup.sortNewestFirst l).
Proof.
  induction l as [|x l IH]; simpl; [constructor|].
  by apply insertNewest_sorted.
Qed.

Lemma sortNewestFirst_stable (t : Z) (l : list RequestData) :
  List.filter (λ r, timestamp r =? t) (Popup.sortNewestFirst l)
  = List.filter (λ r, timestamp r =? t) l.
Proof.
  induction l as [|x l IH]; simpl; [done|]. rewrite <- IH.
  generalize (Popup.sortNewestFirst l) (sortNewestFirst_sorted l).
  clear IH. intros s Hs. induction Hs as [|y s Hs IH Hy]; simpl; [done|].
  destruct (Z.leb_spec (timestamp y) (timestamp x)); simpl; [done|].
  rewrite IH.
  destruct (Z.eqb_spec (timestamp x) t), (Z.eqb_spec (timestamp y) t);
    try done. lia.
Qed.

Lemma list_filter_sublist {A} (f : A → bool) (l : list A) :
  List.filter f l `sublist_of` l.
Proof.
  induction l as [|x l IH]; simpl; [done|].
  destruct (f x); by constructor.
Qed.

Lemma list_filter_sorted {A} (R : A → A → Prop) (f : A → bool) (l : list A) :
  StronglySorted R l → StronglySorted R (List.filter f l).
Proof.
  induction 1 as [|x l Hs IH Hx]; simpl; [constructor|].
  destruct (f x); [|done]. constructor; [done|].
  clear -Hx. induction Hx as [|y l Hy _ IH]; simpl; [done|].
  destruct (f y); [by constructor | done].
Qed.

Lemma list_filter_split {A} (f : A → bool) (l : list A) :
  (List.filter (λ x, negb (f x)) l ++ List.filter f l)%list ≡ₚ l.
Proof.
  induction l as [|x l IH]; simpl; [done|].
  destruct (f x); simpl; [|by rewrite IH].
  by rewrite <- Permutation_middle, IH.
Qed.

Lemma displayLogs_items (input : string) (logs : list RequestData) :
  ∃ f, Popup.items (Popup.displayLogs toLowerCase trim input logs)
       = List.filter f (Popup.sortNewestFirst logs)
       ∧ (toLowerCase input = "" → ∀ r, f r = true).
Proof.
  unfold Popup.displayLogs. destruct logs as [|x logs].
  { by exists (λ _, true). }
  cbv zeta. cbn [Popup.items].
  set (sorted := Popup.sortNewestFirst (x :: logs)).
  assert (sorted = List.filter (λ _, true) sorted) as Hall.
  { clear. induction sorted as [|y s IH]; simpl; [done | by rewrite <- IH]. }
  destruct (String.eqb_spec (toLowerCase input) "") as [->|Hne]; cbn [negb].
  { by exists (λ _, true). }
  destruct (startsWith "!" (toLowerCase input)).
  - destruct (String.eqb _ ""); cbn [negb].
    + by exists (λ _, true).
    + by eexists.
  - by eexists.
Qed.

Lemma filtered_sorted_facts (f : RequestData → bool)
    (logs : list RequestData) :
  StronglySorted Popup.newestFirst (List.filter f (Popup.sortNewestFirst logs))
  ∧ List.filter f (Popup.sortNewestFirst logs) ⊆+ logs
  ∧ ((∀ r, f r = true) →
     List.filter f (Popup.sortNewestFirst logs) ≡ₚ logs).
Proof.
  split; [apply list_filter_sorted, sortNewestFirst_sorted|]. split.
  - rewrite <- (sortNewestFirst_perm logs) at 2.
    apply sublist_submseteq, list_filter_sublist.
  - intros Hall. rewrite <- (sortNewestFirst_perm logs) at 2.
    generalize (Popup.sortNewestFirst logs). intros s.
    induction s as [|y s IH]; simpl; [done|]. by rewrite Hall, IH.
Qed.

Lemma displayLogs_facts (input : string) (logs : list RequestData) :
  let shown := Popup.items (Popup.displayLogs toLowerCase trim input logs) in
  StronglySorted Popup.newestFirst shown
  ∧ shown ⊆+ logs
  ∧ (toLowerCase input = "" → shown ≡ₚ logs).
Proof.
  simpl. destruct (displayLogs_items input logs) as (f & -> & Hempty).
  destruct (filtered_sorted_facts f logs) as (Hs & Hsub & Hall).
  split; [done|]. split; [done|]. intros He. by apply Hall, Hempty.
Qed.

(** X18.  Whatever the search box holds, the popup lists logs newest
    first, and logs with the same timestamp in the order the store answered
    them; what it lists is part of what it was given, with nothing listed
    twice over, and with an empty search term it is all of it.  The
    earlier popup's list has the same properties. *)
Theorem display_newest_first (input : string) (logs : list RequestData) :
  let shown := Popup.items (Popup.displayLogs toLowerCase trim input logs) in
  let plain := Popup.items (Popup.displayLogs_plain toLowerCase input logs) in
  StronglySorted Popup.newestFirst shown
  ∧ shown ⊆+ logs
  ∧ (toLowerCase input = "" → shown ≡ₚ logs)
  ∧ (∀ t, List.filter (λ r, timestamp r =? t) (Popup.sortNewestFirst logs)
          = List.filter (λ r, timestamp r =? t) logs)
  ∧ StronglySorted Popup.newestFirst plain
  ∧ plain ⊆+ logs
  ∧ (toLowerCase input = "" → plain ≡ₚ logs).
Proof.
  simpl. destruct (displayLogs_facts input logs) as (Hs & Hsub & Hall).
  split; [done|]. split; [done|]. split; [done|].
  split; [intros t; apply sortNewestFirst_stable|].
  unfold Popup.displayLogs_plain. destruct logs as [|x logs].
  { simpl. repeat split; try constructor; done. }
  cbv zeta. cbn [Popup.items].
  destruct (String.eqb_spec (toLowerCase input) "") as [->|Hne]; cbn [negb].
  - split; [apply sortNewestFirst_sorted|].
    split; [by rewrite sortNewestFirst_perm|].
    intros _. apply sortNewestFirst_perm.
  - destruct (filtered_sorted_facts
                (Popup.matches toLowerCase (toLowerCase input)) (x :: logs))
      as (Hs' & Hsub' & _).
    split; [done|]. split; [done|]. done.
Qed.

(** X19.  In the popup with exclusion, a search term that, lower-cased,
    is [!] followed by some text lists exactly the logs in which neither
    the lower-cased [url] nor the lower-cased [responseBody] holds the
    trimmed text; with nothing left after trimming it lists everything.
    Any other non-empty term lists exactly the logs in which one of the two
    holds the lower-cased term as typed, which is not trimmed.  So the two
    lists together are the whole of the logs, with no log in both, when
    the plain term, lower-cased, is the trimmed text of the exclusion. *)
Theorem search_exclusion_complements (input input' rest : string)
    (logs : list RequestData) :
  toLowerCase input = String "!" rest →
  toLowerCase input' ≠ "" →
  startsWith "!" (toLowerCase input') = false →
  let keyword := trim rest in
  let term := toLowerCase input' in
  let excluded := Popup.items (Popup.displayLogs toLowerCase trim input logs) in
  let included := Popup.items (Popup.displayLogs toLowerCase trim input' logs) in
  (keyword ≠ "" →
   ∀ r, r ∈ excluded ↔ r ∈ logs ∧ Popup.matches toLowerCase keyword r = false)
  ∧ (keyword = "" → excluded ≡ₚ logs)
  ∧ (∀ r, r ∈ included ↔ r ∈ logs ∧ Popup.matches toLowerCase term r = true)
  ∧ (keyword ≠ "" → term = keyword → (excluded ++ included)%list ≡ₚ logs).
Proof.
  intros Hin Hne' Hbang. cbv zeta. unfold Popup.displayLogs.
  destruct logs as [|x logs].
  { simpl. split; [|split; [done|split; [|done]]].
    - intros _ r. split; [by intros ?%elem_of_nil | by intros [?%elem_of_nil _]].
    - intros r. split; [by intros ?%elem_of_nil | by intros [?%elem_of_nil _]]. }
  cbv zeta. cbn [Popup.items]. rewrite Hin, Hbang.
  apply String.eqb_neq in Hne' as ->.
  change (Popup.substring1 (String "!" rest)) with rest.
  change (startsWith "!" (String "!" rest)) with true.
  change (String.eqb (String "!" rest) "") with false. cbn [negb].
  assert (∀ (f : RequestData → bool) r,
            r ∈ List.filter f (Popup.sortNewestFirst (x :: logs))
            ↔ r ∈ x :: logs ∧ f r = true) as Hfilter.
  { intros f r. rewrite list_elem_of_In, filter_In, <- list_elem_of_In.
    by rewrite (sortNewestFirst_perm (x :: logs)). }
  split; [|split; [|split]].
  - intros Hne r. apply String.eqb_neq in Hne as ->. cbn [negb].
    rewrite Hfilter. by rewrite negb_true_iff.
  - intros ->. apply (sortNewestFirst_perm (x :: logs)).
  - intros r. apply Hfilter.
  - intros Hne ->. apply String.eqb_neq in Hne as ->. cbn [negb].
    rewrite list_filter_split. apply sortNewestFirst_perm.
Qed.

End PopupList.

Lemma display_newest_first_witness :
  Popup.items (Popup.displayLogs Samples.asciiLower Samples.asciiTrim
                 "" Samples.threeLogs)
  ≡ₚ Samples.threeLogs.
Proof.
  destruct (display_newest_first Samples.asciiLower Samples.asciiTrim
              "" Samples.threeLogs) as (_ & _ & H' & _).
  by apply H'.
Defined.

Lemma search_exclusion_complements_witness :
  (Popup.items (Popup.displayLogs Samples.asciiLower Samples.asciiTrim
                  "! USERS " Samples.threeLogs)
   ++ Popup.items (Popup.displayLogs Samples.asciiLower Samples.asciiTrim
                     "Users" Samples.threeLogs))%list
  ≡ₚ Samples.threeLogs.
Proof.
  destruct (search_exclusion_complements Samples.asciiLower Samples.asciiTrim
              "! USERS " "Users" " users " Samples.threeLogs)
    as (_ & _ & _ & H); [reflexivity | discriminate | reflexivity |].
  by apply H.
Defined.

(** The plain term is taken as typed: with a blank in front it matches no
    log here, while the exclusion of the same text drops two of three. *)
Example search_term_not_trimmed :
  url <$> Popup.items (Popup.displayLogs Samples.asciiLower Samples.asciiTrim
                         " users" Samples.threeLogs)
  = []
  ∧ url <$> Popup.items (Popup.displayLogs Samples.asciiLower Samples.asciiTrim
                           "! users" Samples.threeLogs)
    = ["https://example.test/api/items"].
Proof. split; vm_compute; reflexivity. Qed.

Example search_is_case_insensitive :
  url <$> Popup.items (Popup.displayLogs Samples.asciiLower Samples.asciiTrim
                         "USERS" Samples.threeLogs)
  = ["https://example.test/api/users/7"; "https://example.test/api/Users"]
  ∧ Popup.countText (Popup.displayLogs Samples.asciiLower Samples.asciiTrim
                       "USERS" Samples.threeLogs)
    = "2 of 3 JSON responses captured".
Proof. split; vm_compute; reflexivity. Qed.

(** ** The site toggle and the settings form *)

(** X20.  Switching the toggle on leaves the host in [enabledDomains],
    switching it off leaves it out; no other host is added or removed, no
    duplicate is introduced, and the toggle reads back, from what was
    written, the position it was put in. *)
Theorem toggle_updates_domains (hostname : string) (isEnabling : bool)
    (enabledDomains : option (list string)) :
  let domains := default [] enabledDomains in
  let written := (Popup.onToggleChange hostname isEnabling enabledDomains).1 in
  (hostname ∈ written ↔ isEnabling = true)
  ∧ (∀ d, d ≠ hostname → d ∈ written ↔ d ∈ domains)
  ∧ (NoDup domains → NoDup written)
  ∧ Popup.toggleShown hostname (Some written) = isEnabling.
Proof.
  simpl.
  assert (∀ l : list string, ∀ d,
            d ∈ List.filter (λ domain, negb (String.eqb domain hostname)) l
            ↔ d ∈ l ∧ d ≠ hostname) as Hfilter.
  { intros l d. rewrite !list_elem_of_In, filter_In, negb_true_iff.
    by rewrite String.eqb_neq. }
  assert ((hostname ∈ (Popup.onToggleChange hostname isEnabling
                         enabledDomains).1) ↔ isEnabling = true) as Hmem.
  { unfold Popup.onToggleChange. simpl. destruct isEnabling.
    - split; [done|]. intros _. case_bool_decide; [done|].
      apply elem_of_app. right. apply list_elem_of_here.
    - split; [|done]. rewrite Hfilter. by intros [_ ?]. }
  split; [exact Hmem|]. split; [|split].
  - intros d Hd. unfold Popup.onToggleChange. simpl. destruct isEnabling.
    + case_bool_decide; [done|]. rewrite elem_of_app, list_elem_of_singleton.
      split; [intros [?|?]; [done | by destruct Hd] | by left].
    + rewrite Hfilter. split; [by intros [? _] | by split].
  - intros Hnd. unfold Popup.onToggleChange. simpl. destruct isEnabling.
    + case_bool_decide as Hin; [done|].
      apply NoDup_app. split; [done|]. split; [|apply NoDup_singleton].
      intros d Hd ->%list_elem_of_singleton. done.
    + induction Hnd as [|d l Hd Hnd IH]; simpl; [constructor|].
      destruct (negb (String.eqb d hostname)); [|done].
      constructor; [|done]. rewrite Hfilter. by intros [? _].
  - unfold Popup.toggleShown. simpl default.
    destruct isEnabling; [by apply bool_decide_eq_true, Hmem|].
    apply bool_decide_eq_false. intros Hin. by apply Hmem in Hin.
Qed.

Lemma toggle_updates_domains_witness :
  NoDup (Popup.onToggleChange "example.test" true
           (Some ["other.test"; "example.test"])).1.
Proof.
  destruct (toggle_updates_domains "example.test" true
              (Some ["other.test"; "example.test"])) as (_ & _ & H & _).
  apply H. apply NoDup_cons. split; [|apply NoDup_singleton].
  intros Hin%list_elem_of_singleton. discriminate Hin.
Defined.

(** X21.  The toggle reaches the interceptor: once the state message the
    popup sends has been relayed by the content script, the interceptor's
    flag is truthy exactly when the toggle was switched on; and after
    switching off nothing is captured until the next state message. *)
Theorem toggle_reaches_interceptor
    (originalFetch : Interceptor.OriginalFetch) (st : Interceptor.State)
    (hostname : string) (isEnabling : bool)
    (enabledDomains : option (list string)) :
  let sent := (Popup.onToggleChange hostname isEnabling enabledDomains).2 in
  let st' :=
    (Interceptor.step originalFetch st
       (Interceptor.WindowMessage true
          (ContentScript.onSetActivationState sent))).1 in
  truthy (Interceptor.isActive st') = isEnabling
  ∧ Interceptor.heap st' = Interceptor.heap st
  ∧ Interceptor.xhrs st' = Interceptor.xhrs st
  ∧ (isEnabling = false →
     ∀ inputs, Forall (λ i, Interceptor.isStateMessage i = false) inputs →
               Forall (λ e, Interceptor.isPost e = false)
                      (Interceptor.run originalFetch st' inputs).2).
Proof.
  simpl. split; [done|]. split; [done|]. split; [done|].
  intros -> inputs Hin. by apply run_unarmed.
Qed.

Lemma toggle_reaches_interceptor_witness :
  Forall (λ e, Interceptor.isPost e = false)
    (Interceptor.run (Samples.nativeFetch Samples.jsonResponse)
       (Interceptor.step (Samples.nativeFetch Samples.jsonResponse)
          Interceptor.initial
          (Interceptor.WindowMessage true
             (ContentScript.onSetActivationState
                (Popup.onToggleChange "example.test" false None).2))).1
       [Interceptor.PageOpen 0 "GET" (Some "https://example.test/api/items");
        Interceptor.PageSend 0;
        Interceptor.Load 0 Samples.textXhrResponse 1700000000000]).2.
Proof.
  destruct (toggle_reaches_interceptor
              (Samples.nativeFetch Samples.jsonResponse) Interceptor.initial
              "example.test" false None) as (_ & _ & _ & H).
  apply H; [reflexivity | repeat constructor].
Defined.

(** X22.  Settings the form accepted get an Ask past the key-not-found
    check of the provider they name: with [openrouter] the handler goes on
    to query the logs; with [gemini] it either does so or refuses the key
    for its format, which the form does not check. *)
Theorem saved_settings_pass_key_check (trim : string → string)
    (provider geminiInput openrouterInput : string) (saved : SyncStorage)
    (env : Env) (session question : string) (db : Database) :
  Popup.saveApiKey trim provider geminiInput openrouterInput = inr saved →
  storage env = saved →
  let effects := onAsk env session question db in
  (provider = "gemini" →
   effects = [SendResponse (ReplyError INVALID_KEY)]
   ∨ ∃ rest, effects = StoreQuery session :: rest)
  ∧ (provider = "openrouter" →
     ∃ rest, effects = StoreQuery session :: rest).
Proof.
  unfold Popup.saveApiKey. intros Hsave Hst. simpl. split; intros ->.
  - simpl in Hsave.
    destruct (String.eqb_spec (trim geminiInput) "") as [|Hne]; [done|].
    injection Hsave as <-. unfold onAsk. rewrite Hst. simpl.
    unfold askGemini. rewrite truthy_str_nonempty by done. cbn [negb].
    destruct (negb _ || _); [by left|]. right. by eexists.
  - simpl in Hsave.
    destruct (String.eqb_spec (trim openrouterInput) "") as [|Hne]; [done|].
    injection Hsave as <-. unfold onAsk. rewrite Hst. simpl.
    unfold askOpenRouter. rewrite truthy_str_nonempty by done. cbn [negb].
    by eexists.
Qed.

Lemma saved_settings_pass_key_check_witness :
  onAsk {| engine := Healthy;
           storage := {| apiProvider := Some "gemini";
                         geminiApiKey := Some "my key";
                         openrouterApiKey := Some "" |};
           net := Samples.offline |}
    "1700000000000" "what is a?" emptyDatabase
  = [SendResponse (ReplyError INVALID_KEY)]
  ∨ ∃ rest,
      onAsk {| engine := Healthy;
               storage := {| apiProvider := Some "gemini";
                             geminiApiKey := Some "my key";
                             openrouterApiKey := Some "" |};
               net := Samples.offline |}
        "1700000000000" "what is a?" emptyDatabase
      = StoreQuery "1700000000000" :: rest.
Proof.
  destruct (saved_settings_pass_key_check Samples.asciiTrim "gemini"
              "  my key " "" _
              {| engine := Healthy;
                 storage := {| apiProvider := Some "gemini";
                               geminiApiKey := Some "my key";
                               openrouterApiKey := Some "" |};
                 net := Samples.offline |}
              "1700000000000" "what is a?" emptyDatabase
              eq_refl eq_refl) as (H & _).
  by apply H.
Defined.

(** ** Loading the list *)


